(** * JobFunnel scrapers: pagination planning, page aggregation and
      required-field validation

    A shallow embedding of [jobfunnel/backend/scrapers/monster.py] and
    [jobfunnel/backend/scrapers/glassdoor/static.py].

    Conventions.
    - Python [int] is [Z]; Python [str] is [string] (the ASCII fragment:
      [\d] and [str.isspace] are modelled on ASCII characters only).
    - A raised exception is [Raise e]; a returned value is [Return v].
    - HTML parsing (bs4) and HTTP transport (requests) are injected
      capabilities, the classes [DocumentParser] and [Session].
    - [int(s)] raises ValueError for more than 4300 digits, CPython's
      default limit on the conversion.
    - [int / int] is Python's true division: the binary64 number nearest
      to the exact quotient (ties to even), [OverflowError] beyond the
      binary64 range.  A finite float is kept as mantissa and exponent.
    - The thread pool of the GlassDoor scraper is a step relation on the
      state of its futures; every interleaving is a run. *)

From Stdlib Require Import ZArith String Ascii List Lia DecimalString.
From Stdlib Require DecimalZ DecimalPos.
From stdpp Require Import base option list gmap strings relations.

Open Scope string_scope.
Open Scope list_scope.
Open Scope Z_scope.

(* ================================================================== *)
(** * Part I: definitions                                              *)
(* ================================================================== *)

(** ** Python values, exceptions and builtins *)

Module Py.

Inductive Exception :=
| AttributeError        (* [None.text], [None.find(..)] *)
| IndexError            (* [[][0]] *)
| TypeError
| OverflowError         (* int / int too large for a float *)
| ZeroDivisionError
| NotImplementedError
| ValueError
| RequestException.     (* requests: transport failure *)

Inductive result (A : Type) :=
| Return (a : A)
| Raise (e : Exception).
Arguments Return {A} a.
Arguments Raise {A} e.

#[global] Instance result_ret : MRet result := @Return.

#[global] Instance result_bind : MBind result :=
  fun A B (k : A -> result B) (r : result A) =>
    match r with
    | Return a => k a
    | Raise e => Raise e
    end.

Definition raises {A} (r : result A) : Prop :=
  match r with Return _ => False | Raise _ => True end.

Definition returns {A} (r : result A) : Prop :=
  match r with Return _ => True | Raise _ => False end.

(** [o.attr] on an optional object: [None] has no attributes. *)
Definition deref {A} (o : option A) : result A :=
  match o with
  | Some a => Return a
  | None => Raise AttributeError
  end.

(** [l[0]] *)
Definition index0 {A} (l : list A) : result A :=
  match l with
  | x :: _ => Return x
  | [] => Raise IndexError
  end.

(** *** Characters and strings *)

Definition isdigit (c : ascii) : bool :=
  let n := nat_of_ascii c in (48 <=? n)%nat && (n <=? 57)%nat.

(** [str.isspace] on ASCII: TAB, LF, VT, FF, CR, FS, GS, RS, US, SP. *)
Definition isspace (c : ascii) : bool :=
  let n := nat_of_ascii c in
  ((9 <=? n)%nat && (n <=? 13)%nat)
  || ((28 <=? n)%nat && (n <=? 32)%nat).

Fixpoint lstrip (s : string) : string :=
  match s with
  | String c s' => if isspace c then lstrip s' else s
  | EmptyString => EmptyString
  end.

Fixpoint rstrip (s : string) : string :=
  match s with
  | String c s' =>
      match rstrip s' with
      | EmptyString => if isspace c then EmptyString else String c EmptyString
      | r => String c r
      end
  | EmptyString => EmptyString
  end.

(** [s.strip()] *)
Definition strip (s : string) : string := rstrip (lstrip s).

(** [s.replace(old, new)] for a one-character [old]. *)
Fixpoint replace (old : ascii) (new : string) (s : string) : string :=
  match s with
  | String c s' =>
      if Ascii.eqb c old then new +:+ replace old new s'
      else String c (replace old new s')
  | EmptyString => EmptyString
  end.

(** [sep.join(l)] *)
Fixpoint join (sep : string) (l : list string) : string :=
  match l with
  | [] => EmptyString
  | [x] => x
  | x :: l' => x +:+ sep +:+ join sep l'
  end.

(** [str(n)] and [f'{n}'] for an int. *)
Definition str_of_int (n : Z) : string := NilZero.string_of_int (Z.to_int n).

(** [str(o)] and [f'{o}'] for an optional string: [None] prints as
    the four letters [None]. *)
Definition str_of_optional (o : option string) : string :=
  match o with
  | Some s => s
  | None => "None"
  end.

Definition digit_value (c : ascii) : Z := Z.of_nat (nat_of_ascii c) - 48.

Fixpoint int_of_digits_from (acc : Z) (s : string) : Z :=
  match s with
  | String c s' => int_of_digits_from (10 * acc + digit_value c) s'
  | EmptyString => acc
  end.

(** The number that a run of decimal digits writes. *)
Definition int_of_digits (s : string) : Z := int_of_digits_from 0 s.

(** [sys.int_info.default_max_str_digits], the longest run of digits that
    [int] converts (CPython's default, leading zeros counted). *)
Definition default_max_str_digits : Z := 4300.

Definition too_long (s : string) : bool :=
  default_max_str_digits <? Z.of_nat (String.length s).

(** [int(s)] for [s] a run of decimal digits (a match of [\d+]):
    ValueError for a run of more than 4300 digits. *)
Definition int_of_str (s : string) : result Z :=
  if too_long s then Raise ValueError else Return (int_of_digits s).

Definition starts_with_digit (s : string) : bool :=
  match s with
  | String c _ => isdigit c
  | EmptyString => false
  end.

(** [re.findall(r'(\d+)', s)]: the maximal runs of digits of [s], from
    left to right. *)
Fixpoint findall_digits (s : string) : list string :=
  match s with
  | String c s' =>
      if isdigit c then
        if starts_with_digit s' then
          match findall_digits s' with
          | run :: runs => String c run :: runs
          | [] => [String c EmptyString]
          end
        else String c EmptyString :: findall_digits s'
      else findall_digits s'
  | EmptyString => []
  end.

(** The run that [re.findall(r'(\d+)', s)[0]] is, when there is one. *)
Definition first_run (s : string) : string := default "" (head (findall_digits s)).

(** *** True division and [math.ceil] *)

(** A finite binary64 number, [mantissa * 2 ^ exponent]. *)
Record float := Float { mantissa : Z; exponent : Z }.

(** [2 ^ k] as a factor that is [1] for a negative [k]. *)
Definition scale (k : Z) : Z := 2 ^ Z.max 0 k.

(** The integer nearest to [p / q], ties to the even one ([0 <= p],
    [0 < q]). *)
Definition round_half_even (p q : Z) : Z :=
  let f := p / q in
  let r2 := 2 * (p mod q) in
  if r2 <? q then f
  else if q <? r2 then f + 1
  else if Z.even f then f else f + 1.

(** [e] with [2 ^ e <= a / b < 2 ^ (e + 1)], for [0 < a] and [0 < b]. *)
Definition quotient_exponent (a b : Z) : Z :=
  let d := Z.log2 a - Z.log2 b in
  if a * scale (- d) <? b * scale d then d - 1 else d.

(** [a / b] for ints. *)
Definition truediv (a b : Z) : result float :=
  if b =? 0 then Raise ZeroDivisionError
  else if a =? 0 then Return (Float 0 0)
  else
    let sign := Z.sgn a * Z.sgn b in
    let a := Z.abs a in
    let b := Z.abs b in
    let e := quotient_exponent a b in
    (* 53 significant bits; the least binary64 exponent is -1074 *)
    let sh := Z.min (52 - e) 1074 in
    let m := round_half_even (a * scale sh) (b * scale (- sh)) in
    if 2 ^ 1024 * scale sh <=? m * scale (- sh) then Raise OverflowError
    else Return (Float (sign * m) (- sh)).

(** [math.ceil(x)], an int. *)
Definition ceil (x : float) : Z :=
  if 0 <=? exponent x then mantissa x * 2 ^ exponent x
  else - ((- mantissa x) / 2 ^ (- exponent x)).

End Py.

Import Py.


(** ** Regular expressions of the two modules *)

Module Re.

(** The longest prefix of digits, and what follows it. *)
Fixpoint digit_prefix (s : string) : string :=
  match s with
  | String c s' => if isdigit c then String c (digit_prefix s') else EmptyString
  | EmptyString => EmptyString
  end.

Fixpoint after_digits (s : string) : string :=
  match s with
  | String c s' => if isdigit c then after_digits s' else s
  | EmptyString => EmptyString
  end.

(** Every character is a digit. *)
Fixpoint all_digits (s : string) : bool :=
  match s with
  | String c s' => isdigit c && all_digits s'
  | EmptyString => true
  end.

(** [_IP\d+\.] anchored at the head of [s]: the length of the match.
    The greedy [\d+] takes the whole run of digits; giving digits back
    cannot help, the next character would be a digit and not the dot. *)
Definition match_IP (s : string) : option nat :=
  match s with
  | String "_" (String "I" (String "P" r)) =>
      match digit_prefix r, after_digits r with
      | String _ _ as d, String "." _ => Some (4 + String.length d)%nat
      | _, _ => None
      end
  | _ => None
  end.

(** [re.sub(r'_IP\d+\.', repl, s)]: every match, leftmost first and not
    overlapping, is replaced; [skip] counts the characters of a match
    still to be passed over. *)
Fixpoint sub_IP_from (skip : nat) (repl s : string) : string :=
  match s with
  | String c s' =>
      match skip with
      | S k => sub_IP_from k repl s'
      | O =>
          match match_IP s with
          | Some n => repl +:+ sub_IP_from (n - 1) repl s'
          | None => String c (sub_IP_from 0 repl s')
          end
      end
  | EmptyString => EmptyString
  end.

Definition sub_IP (repl s : string) : string := sub_IP_from 0 repl s.

(** [re.search(r'_IP\d+\.', s) is not None] *)
Fixpoint search_IP (s : string) : bool :=
  match s with
  | String _ s' => bool_decide (is_Some (match_IP s)) || search_IP s'
  | EmptyString => false
  end.

(** [c in s] *)
Fixpoint contains (c : ascii) (s : string) : bool :=
  match s with
  | String c' s' => Ascii.eqb c' c || contains c s'
  | EmptyString => false
  end.

(** [[0-9a-f]] *)
Definition ishex (c : ascii) : bool :=
  let n := nat_of_ascii c in
  isdigit c || ((97 <=? n)%nat && (n <=? 102)%nat).

(** [[1-5]] *)
Definition is_1_5 (c : ascii) : bool :=
  let n := nat_of_ascii c in (49 <=? n)%nat && (n <=? 53)%nat.

(** [[89ab]] *)
Definition is_89ab (c : ascii) : bool :=
  let n := nat_of_ascii c in
  (n =? 56)%nat || (n =? 57)%nat || (n =? 97)%nat || (n =? 98)%nat.

(** Exactly [n] characters of the class [p]: the match and the rest. *)
Fixpoint take_class (p : ascii -> bool) (n : nat) (s : string)
  : option (string * string) :=
  match n with
  | O => Some (EmptyString, s)
  | S n' =>
      match s with
      | String c s' =>
          if p c then
            match take_class p n' s' with
            | Some (m, r) => Some (String c m, r)
            | None => None
            end
          else None
      | EmptyString => None
      end
  end.

Definition take_dash (s : string) : option (string * string) :=
  take_class (Ascii.eqb "-") 1 s.

(** [[0-9a-f]{8}-[0-9a-f]{4}-[1-5][0-9a-f]{3}-[89ab][0-9a-f]{3}-[0-9a-f]{12}]
    anchored at the head of [s]: the text matched. *)
Definition match_uuid (s : string) : option string :=
  '(g1, s) ← take_class ishex 8 s;
  '(d1, s) ← take_dash s;
  '(g2, s) ← take_class ishex 4 s;
  '(d2, s) ← take_dash s;
  '(v, s) ← take_class is_1_5 1 s;
  '(g3, s) ← take_class ishex 3 s;
  '(d3, s) ← take_dash s;
  '(w, s) ← take_class is_89ab 1 s;
  '(g4, s) ← take_class ishex 3 s;
  '(d4, s) ← take_dash s;
  '(g5, s) ← take_class ishex 12 s;
  Some (g1 +:+ d1 +:+ g2 +:+ d2 +:+ v +:+ g3 +:+ d3 +:+ w +:+ g4 +:+ d4 +:+ g5).

(** [ID_REGEX] anchored at the head of [s]: group 1 of the match.  The
    alternatives are tried in order, the UUID first. *)
Definition match_ID (s : string) : option string :=
  match s with
  | String "/" r =>
      match match_uuid r with
      | Some g => Some g
      | None =>
          match digit_prefix r with
          | EmptyString => None
          | d => Some d
          end
      end
  | _ => None
  end.

Fixpoint ID_REGEX_findall_from (skip : nat) (s : string) : list string :=
  match s with
  | String c s' =>
      match skip with
      | S k => ID_REGEX_findall_from k s'
      | O =>
          match match_ID s with
          | Some g => g :: ID_REGEX_findall_from (String.length g) s'
          | None => ID_REGEX_findall_from 0 s'
          end
      end
  | EmptyString => []
  end.

(** [ID_REGEX.findall(s)] *)
Definition ID_REGEX_findall (s : string) : list string :=
  ID_REGEX_findall_from 0 s.

End Re.

(** ** Resources and collaborators *)

(** Modelled from the spec: [jobfunnel.resources.JobField], which is not
    among the sources.  The spec's FieldId is "an enumerated, closed set
    of semantic job attributes (title, company, location, post-date, url,
    key-id, description, tags, ...)"; the two scrapers name the first
    seven, and TAGS only in a comment. *)
Inductive JobField :=
| TITLE | COMPANY | LOCATION | POST_DATE | URL | KEY_ID | DESCRIPTION | TAGS.

#[global] Instance JobField_eq_dec : EqDecision JobField.
Proof. solve_decision. Defined.

#[global] Instance JobField_countable : Countable JobField.
Proof.
  refine (inj_countable'
    (fun f => match f with
              | TITLE => 0 | COMPANY => 1 | LOCATION => 2 | POST_DATE => 3
              | URL => 4 | KEY_ID => 5 | DESCRIPTION => 6 | TAGS => 7
              end%nat)
    (fun n => match n with
              | 0 => TITLE | 1 => COMPANY | 2 => LOCATION | 3 => POST_DATE
              | 4 => URL | 5 => KEY_ID | 6 => DESCRIPTION | _ => TAGS
              end%nat) _).
  intros f. destruct f; reflexivity.
Defined.

(** A value of a job attribute: [None], a [str] or a [date] (the day as an
    ordinal). *)
Inductive Value :=
| VNone
| VStr (s : string)
| VDate (day : Z).

Definition value_of_optional (o : option string) : Value :=
  match o with
  | Some s => VStr s
  | None => VNone
  end.

(** The [Job] under construction: its attributes, by [JobField]. *)
Abbreviation Job := (gmap JobField Value).

(** The argument of [find] and [find_all], as the call sites write it. *)
Inductive Selector :=
| Tag (name : string)                          (* find('time') *)
| TagClass (name cls : string)                 (* find('h2', 'figure') *)
| TagAttr (name attr value : string)           (* find('h2', attrs={'class': 'title'}) *)
| TagAttrSet (name a b : string)               (* find('li', attrs={'class', 'next'}) *)
| Id (id : string).                            (* find(id='JobDescription') *)

(** bs4, with the configured parser. *)
Class DocumentParser := {
  Soup : Type;
  BeautifulSoup : string -> Soup;          (* BeautifulSoup(text, config.bs4_parser) *)
  find : Soup -> Selector -> option Soup;  (* None when nothing matches *)
  find_all : Soup -> Selector -> list Soup;
  text : Soup -> string;                   (* tag.text *)
  tag_get : Soup -> string -> option string (* tag.get(name) *)
}.

Record Response := { url : string; response_text : string }.

Definition FormData := list (string * string).

Inductive Request :=
| GET (address : string)
| POST (address : string) (data : FormData).


(** requests.Session: the answer to a request, [None] when the transport
    raises.  The same request always has the same answer. *)
Class Session := {
  session_get : string -> option Response;
  session_post : string -> FormData -> option Response
}.

(** [jobfunnel.backend.tools.tools.calc_post_date_from_relative_str], not
    among the sources: taken as given. *)
Class Tools := {
  calc_post_date_from_relative_str : string -> result Z
}.

(** [config.search_config] *)
Record SearchConfig := {
  keywords : list string;
  domain : string;
  city : string;
  province_or_state : string;
  radius : Z
}.

(** A computation that sends requests and may raise: the requests sent
    are appended to the log. *)
Definition IO (A : Type) : Type := list Request -> result A * list Request.

#[global] Instance IO_ret : MRet IO := fun A a log => (Return a, log).

#[global] Instance IO_bind : MBind IO :=
  fun A B (k : A -> IO B) (m : IO A) log =>
    match m log with
    | (Return a, log') => k a log'
    | (Raise e, log') => (Raise e, log')
    end.

Definition lift {A} (r : result A) : IO A := fun log => (r, log).

(** [self.session.get(url)] *)
Definition send_get `{Session} (address : string) : IO Response :=
  fun log =>
    (match session_get address with
     | Some r => Return r
     | None => Raise RequestException
     end, log ++ [GET address]).

(** [self.session.post(url, data=data)] *)
Definition send_post `{Session} (address : string) (data : FormData) : IO Response :=
  fun log =>
    (match session_post address data with
     | Some r => Return r
     | None => Raise RequestException
     end, log ++ [POST address data]).

(** [int(ceil(num_res / page_size))], the last line of both
    [_get_num_search_result_pages]. *)
Definition page_count (num_res page_size : Z) : result Z :=
  x ← truediv num_res page_size; Return (ceil x).

(** What a scraper class provides to [BaseScraper]. *)
Record Scraper `{DocumentParser} := {
  min_required_job_fields : list JobField;
  job_get_fields : list JobField;
  job_set_fields : list JobField;
  get : JobField -> Soup -> result Value;
  set : JobField -> Job -> Soup -> IO Job
}.

(** [job.url], a [str]. *)
Definition job_url (job : Job) : result string :=
  match job !! URL with
  | Some (VStr u) => Return u
  | _ => Raise TypeError
  end.

(** ** monster.py *)

Module Monster.

Definition MAGIC_MONSTER_SEARCH_STRING : string :=
  "skr_navigation_nhpso_searchMain".

Definition MAX_RESULTS_PER_MONSTER_PAGE : Z := 25.

(** The two concrete classes. *)
Inductive Class := MonsterScraperCANEng | MonsterScraperUSAEng.

Definition _convert_radius (self : Class) (radius : Z) : Z :=
  match self with
  | MonsterScraperCANEng =>
      if radius <? 5 then 0
      else if (5 <=? radius) && (radius <? 10) then 5
      else if (10 <=? radius) && (radius <? 20) then 10
      else if (20 <=? radius) && (radius <? 50) then 20
      else if (50 <=? radius) && (radius <? 100) then 50
      else if 100 <=? radius then 100
      else radius
  | MonsterScraperUSAEng =>
      if radius <? 5 then 0
      else if (5 <=? radius) && (radius <? 10) then 5
      else if (10 <=? radius) && (radius <? 20) then 10
      else if (20 <=? radius) && (radius <? 30) then 20
      else if (30 <=? radius) && (radius <? 40) then 30
      else if (40 <=? radius) && (radius <? 50) then 40
      else if (50 <=? radius) && (radius <? 60) then 50
      else if (60 <=? radius) && (radius <? 75) then 60
      else if (75 <=? radius) && (radius <? 100) then 75
      else if (100 <=? radius) && (radius <? 150) then 100
      else if (150 <=? radius) && (radius <? 200) then 150
      else if 200 <=? radius then 200
      else radius
  end.

Definition min_required_job_fields : list JobField :=
  [TITLE; COMPANY; LOCATION; KEY_ID; URL].

Definition job_get_fields : list JobField :=
  [TITLE; COMPANY; LOCATION; POST_DATE; URL].

Definition job_set_fields : list JobField := [KEY_ID; DESCRIPTION].

(** Line 163: [int(re.findall(r'(\d+)', num_res)[0])]. *)
Definition total_of_text (num_res : string) : result Z :=
  run ← index0 (findall_digits num_res);
  int_of_str run.

(** Lines 163-164, on the stripped text of the count indicator. *)
Definition pages_of_text (num_res : string) : result Z :=
  num_res ← total_of_text num_res;
  page_count num_res MAX_RESULTS_PER_MONSTER_PAGE.

Section Scraper.
Context `{DocumentParser} `{Session} `{Tools}.
Variable self : Class.
Variable config : SearchConfig.

(** [__init__]: [self.query] *)
Definition query : string :=
  replace " " "-" (join "-" (keywords config)).

Definition get (parameter : JobField) (soup : Soup) : result Value :=
  match parameter with
  | TITLE =>
      el ← deref (find soup (TagAttr "h2" "class" "title"));
      Return (VStr (strip (text el)))
  | COMPANY =>
      el ← deref (find soup (TagAttr "div" "class" "company"));
      Return (VStr (strip (text el)))
  | LOCATION =>
      el ← deref (find soup (TagAttr "div" "class" "location"));
      Return (VStr (strip (text el)))
  | POST_DATE =>
      el ← deref (find soup (Tag "time"));
      day ← calc_post_date_from_relative_str (strip (text el));
      Return (VDate day)
  | URL =>
      el ← deref (find soup (TagAttr "a" "data-bypass" "true"));
      Return (VStr (str_of_optional (tag_get el "href")))
  | _ => Raise NotImplementedError
  end.

Definition set (parameter : JobField) (job : Job) (soup : Soup) : IO Job :=
  match parameter with
  | KEY_ID =>
      lift (address ← job_url job;
            key_id ← index0 (Re.ID_REGEX_findall address);
            Return (<[KEY_ID := VStr key_id]> job))
  | DESCRIPTION =>
      address ← lift (job_url job);
      response ← send_get address;
      let detailed_job_soup := BeautifulSoup (response_text response) in
      el ← lift (deref (find detailed_job_soup (Id "JobDescription")));
      mret (<[DESCRIPTION := VStr (strip (text el))]> job)
  | _ => lift (Raise NotImplementedError)
  end.

Definition _get_search_url (method : string) : result string :=
  if String.eqb method "get" then
    Return ("https://www.monster." +:+ domain config
            +:+ "/jobs/search/?q=" +:+ query
            +:+ "&where=" +:+ replace " " "-" (city config)
            +:+ "__2C-" +:+ province_or_state config
            +:+ "&intcid=" +:+ MAGIC_MONSTER_SEARCH_STRING
            +:+ "&rad=" +:+ str_of_int (_convert_radius self (radius config))
            +:+ "&where=" +:+ replace " " "-" (city config)
            +:+ "__2c-" +:+ province_or_state config)
  else if String.eqb method "post" then Raise NotImplementedError
  else Raise ValueError.

Definition _get_num_search_result_pages (search_url : string) : IO Z :=
  request_html ← send_get search_url;
  let soup_base := BeautifulSoup (response_text request_html) in
  el ← lift (deref (find soup_base (TagClass "h2" "figure")));
  lift (pages_of_text (strip (text el))).

Definition _get_job_soups_from_search_page (search_url : string) (pages : Z)
  : IO (list Soup) :=
  let page_url := search_url +:+ "&start=" +:+ str_of_int pages in
  response ← send_get page_url;
  mret (find_all (BeautifulSoup (response_text response))
                 (TagAttr "div" "class" "flex-row")).

Definition get_job_soups_from_search_result_listings : IO (list Soup) :=
  search_url ← lift (_get_search_url "get");
  pages ← _get_num_search_result_pages search_url;
  _get_job_soups_from_search_page search_url pages.

Definition scraper : Scraper :=
  Build_Scraper _ min_required_job_fields job_get_fields job_set_fields
                get set.

End Scraper.

End Monster.

(** ** glassdoor/static.py *)

Module GlassDoor.

Definition min_required_job_fields : list JobField :=
  [TITLE; COMPANY; LOCATION; KEY_ID; URL].

Definition job_get_fields : list JobField :=
  [TITLE; COMPANY; LOCATION; POST_DATE; URL; KEY_ID].

Definition job_set_fields : list JobField := [DESCRIPTION].

(** Line 179: [int(re.findall(r'(\d+)', num_res.replace(',', ''))[0])]. *)
Definition total_of_text (num_res : string) : result Z :=
  run ← index0 (findall_digits (replace "," "" num_res));
  int_of_str run.

(** Lines 179-180, on the stripped text of the count indicator. *)
Definition pages_of_text (max_results_per_page : Z) (num_res : string)
  : result Z :=
  num_res ← total_of_text num_res;
  page_count num_res max_results_per_page.

(** A future of the pool and the task it runs,
    [_search_page_for_job_soups(url, job_soup_list)]: the page is still
    to be requested, or its listings are found and still to be appended
    to the shared list, or the task is over. *)
Inductive Future `{DocumentParser} :=
| Pending (address : string)
| Fetched (job : list Soup)
| Done
| Failed (e : Exception).

Record Pool `{DocumentParser} := {
  futures_list : list Future;
  requests : list Request;
  job_soup_list : list Soup
}.

Definition finished `{DocumentParser} (f : Future) : Prop :=
  match f with
  | Done | Failed _ => True
  | Pending _ | Fetched _ => False
  end.

(** What [get_job_soups_from_search_result_listings] does: it returns the
    shared list (the requests sent are kept with it), or it raises. *)
Inductive Outcome `{DocumentParser} :=
| Returned (job_soup_list : list Soup) (requests : list Request)
| Raised (e : Exception).

Section Scraper.
Context `{DocumentParser} `{Session} `{Tools}.
Variable config : SearchConfig.
(** [BaseGlassDoorScraper], not among the sources: the page size and
    what [get_search_url(method='post')] returns are taken as given. *)
Variable max_results_per_page : Z.
Variable search_url : string.
Variable data : FormData.

Definition get (parameter : JobField) (soup : Soup) : result Value :=
  match parameter with
  | TITLE => Return (value_of_optional (tag_get soup "data-normalize-job-title"))
  | COMPANY =>
      el ← deref (find soup (TagAttrSet "div" "class" "jobInfoItem jobEmpolyerName"));
      Return (VStr (strip (text el)))
  | LOCATION => Return (value_of_optional (tag_get soup "data-job-loc"))
  | POST_DATE =>
      el ← deref (find soup (TagAttr "div" "class"
                               "d-flex align-items-end pl-std css-mi55ob"));
      day ← calc_post_date_from_relative_str (strip (text el));
      Return (VDate day)
  | KEY_ID => Return (value_of_optional (tag_get soup "data-id"))
  | URL =>
      wrap ← deref (find soup (TagAttrSet "div" "class" "logoWrap"));
      a ← deref (find wrap (Tag "a"));
      let part_url := tag_get a "href" in
      Return (VStr ("https://www.glassdoor." +:+ domain config
                    +:+ str_of_optional part_url))
  | _ => Raise NotImplementedError
  end.

Definition set (parameter : JobField) (job : Job) (soup : Soup) : IO Job :=
  match parameter with
  | DESCRIPTION =>
      address ← lift (job_url job);
      response ← send_get address;
      let job_link_soup := BeautifulSoup (response_text response) in
      el ← lift (deref (find job_link_soup (Id "JobDescriptionContainer")));
      mret (<[DESCRIPTION := VStr (strip (text el))]> job)
  | _ => lift (Raise NotImplementedError)
  end.

Definition _get_num_search_result_pages (soup_base : Soup) : result Z :=
  el ← deref (find soup_base (TagAttrSet "p" "class" "jobsCount"));
  pages_of_text max_results_per_page (strip (text el)).

(** Lines 90-100: the address of page [page], for [page <> 1]. *)
Definition page_url (soup_base : Soup) (page : Z) : result string :=
  li ← deref (find soup_base (TagAttrSet "li" "class" "next"));
  a ← deref (find li (Tag "a"));
  let part_url := tag_get a "href" in
  Return (Re.sub_IP ("_IP" +:+ str_of_int page +:+ ".")
            ("https://www.glassdoor." +:+ domain config
             +:+ str_of_optional part_url)).

(** The address handed to the task of one turn of the loop. *)
Definition task_url (request_html : Response) (soup_base : Soup) (page : Z)
  : result string :=
  if page =? 1 then Return (url request_html)
  else page_url soup_base page.

(** The loop [for page in range(1, n_pages + 1)]: the addresses of the
    tasks submitted, in order; it raises where a turn raises. *)
Definition submitted (request_html : Response) (soup_base : Soup)
    (n_pages : Z) : result (list string) :=
  mapM (task_url request_html soup_base) (seqZ 1 n_pages).

(** One atomic step of one task of the pool. *)
Inductive step : Pool -> Pool -> Prop :=
| step_fetch (p : Pool) (i : nat) (address : string) (response : Response) :
    futures_list p !! i = Some (Pending address) ->
    session_get address = Some response ->
    step p {| futures_list :=
                <[i := Fetched (find_all (BeautifulSoup (response_text response))
                                         (TagAttrSet "li" "class" "jl"))]>
                  (futures_list p);
              requests := requests p ++ [GET address];
              job_soup_list := job_soup_list p |}
| step_fetch_raises (p : Pool) (i : nat) (address : string) :
    futures_list p !! i = Some (Pending address) ->
    session_get address = None ->
    step p {| futures_list := <[i := Failed RequestException]> (futures_list p);
              requests := requests p ++ [GET address];
              job_soup_list := job_soup_list p |}
| step_extend (p : Pool) (i : nat) (job : list Soup) :
    futures_list p !! i = Some (Fetched job) ->
    step p {| futures_list := <[i := Done]> (futures_list p);
              requests := requests p;
              job_soup_list := job_soup_list p ++ job |}.

(** The listings of the page at [address], as a task finds them; none
    when the request raises. *)
Definition page_listings (address : string) : list Soup :=
  match session_get address with
  | Some response =>
      find_all (BeautifulSoup (response_text response))
               (TagAttrSet "li" "class" "jl")
  | None => []
  end.

(** What a future has still to send and to append, and the steps it
    has left. *)
Definition owed_requests (f : Future) : list Request :=
  match f with
  | Pending address => [GET address]
  | _ => []
  end.

Definition owed_soups (f : Future) : list Soup :=
  match f with
  | Pending address => page_listings address
  | Fetched job => job
  | _ => []
  end.

Definition steps_left (f : Future) : nat :=
  match f with
  | Pending _ => 2
  | Fetched _ => 1
  | _ => 0
  end.

Definition work (fs : list Future) : nat := sum_list (steps_left <$> fs).

(** [wait(futures_list)]: the pool runs until every future is over. *)
Definition wait (p p' : Pool) : Prop :=
  rtc step p p' /\ Forall finished (futures_list p').

Inductive get_job_soups_from_search_result_listings : Outcome -> Prop :=
| post_raises :
    session_post search_url data = None ->
    get_job_soups_from_search_result_listings (Raised RequestException)
| count_raises (request_html : Response) (e : Exception) :
    session_post search_url data = Some request_html ->
    _get_num_search_result_pages (BeautifulSoup (response_text request_html))
      = Raise e ->
    get_job_soups_from_search_result_listings (Raised e)
| loop_raises (request_html : Response) (n_pages : Z) (e : Exception) :
    session_post search_url data = Some request_html ->
    _get_num_search_result_pages (BeautifulSoup (response_text request_html))
      = Return n_pages ->
    submitted request_html (BeautifulSoup (response_text request_html)) n_pages
      = Raise e ->
    get_job_soups_from_search_result_listings (Raised e)
| pool_returns (request_html : Response) (n_pages : Z)
    (addresses : list string) (p : Pool) :
    session_post search_url data = Some request_html ->
    _get_num_search_result_pages (BeautifulSoup (response_text request_html))
      = Return n_pages ->
    submitted request_html (BeautifulSoup (response_text request_html)) n_pages
      = Return addresses ->
    wait {| futures_list := Pending <$> addresses;
            requests := [POST search_url data];
            job_soup_list := [] |} p ->
    get_job_soups_from_search_result_listings
      (Returned (job_soup_list p) (requests p)).

Definition scraper : Scraper :=
  Build_Scraper _ min_required_job_fields job_get_fields job_set_fields
                get set.

End Scraper.

End GlassDoor.

(** ** BaseScraper: one listing, from fragment to validated record *)

Module BaseScraper.

(** Modelled from the spec: what "successfully extracted" asks of a value
    (jobfunnel/backend/scrapers/base.py is not among the sources).
    extractFromListing "fails with ExtractionFailed(field) if the expected
    markup is absent or malformed": the [None] that [soup.get] returns for
    an attribute that the fragment does not have is no extracted value. *)
Definition extracted (v : Value) : bool :=
  match v with
  | VNone => false
  | _ => true
  end.

Section Scrape.
Context `{DocumentParser}.
Variable self : Scraper.

(** Modelled from the spec: extractFromListing of [BaseScraper.scrape_job]
    (base.py is not among the sources), over the [get] of the scraper:
    the value extracted, or none when the extraction fails, which is when
    [get] raises or returns [None]. *)
Definition extractFromListing (f : JobField) (soup : Soup) : option Value :=
  match get self f soup with
  | Return v => if extracted v then Some v else None
  | Raise _ => None
  end.

(** Modelled from the spec: the listing half of step 4 of
    ScrapeCoordinator in [BaseScraper.scrape_job] (base.py is not among
    the sources): "run extraction over every field in
    fetchedFromListing"; a field whose extraction fails "is simply absent
    from the record". *)
Fixpoint get_all (fields : list JobField) (soup : Soup) (job : Job) : Job :=
  match fields with
  | f :: fields' =>
      match extractFromListing f soup with
      | Some v => get_all fields' soup (<[f := v]> job)
      | None => get_all fields' soup job
      end
  | [] => job
  end.

(** Modelled from the spec: the detail half of step 4 in
    [BaseScraper.scrape_job] (base.py is not among the sources):
    "then, for fields that also require detail-page data, run
    extractFromDetail"; a failure leaves the record as it was. *)
Fixpoint set_all (fields : list JobField) (soup : Soup) (job : Job) : IO Job :=
  match fields with
  | f :: fields' =>
      fun log =>
        match set self f job soup log with
        | (Return job', log') => set_all fields' soup job' log'
        | (Raise _, log') => set_all fields' soup job log'
        end
  | [] => mret job
  end.

(** Modelled from the spec: step 5, the validation in
    [BaseScraper.scrape_job] (base.py is not among the sources): "a
    JobRecord is accepted only if every field in required was
    successfully extracted": the record holds an extracted value for each
    of them. *)
Definition accepted (job : Job) : bool :=
  forallb (fun f => match job !! f with
                    | Some v => extracted v
                    | None => false
                    end)
          (min_required_job_fields self).

(** A successful [set] of a field writes that field and no other. *)
Definition set_writes_its_field : Prop :=
  forall f job soup log job' log',
    set self f job soup log = (Return job', log') ->
    exists v, job' = <[f := v]> job.

(** Modelled from the spec: [BaseScraper.scrape_job] (base.py is not
    among the sources), steps 4 and 5: the record of one fragment, or
    none when a required field is missing ("failure is per-record"). *)
Definition scrape_job (soup : Soup) : IO (option Job) :=
  job ← set_all (job_set_fields self) soup
                (get_all (job_get_fields self) soup ∅);
  mret (if accepted job then Some job else None).

End Scrape.

End BaseScraper.

(** ** Example collaborators

    A parsed document given by what its queries answer, a session given
    by the table of its responses, and two small sites. *)

Module Fixture.

#[global] Instance Selector_eq_dec : EqDecision Selector.
Proof. solve_decision. Defined.

#[warning="-register-all"] Inductive Doc :=
| Node (node_text : string)
       (node_attrs : list (string * string))
       (node_find : list (Selector * Doc))
       (node_find_all : list (Selector * list Doc)).

Fixpoint assoc {A B} `{EqDecision A} (k : A) (l : list (A * B)) : option B :=
  match l with
  | (k', v) :: l' => if decide (k' = k) then Some v else assoc k l'
  | [] => None
  end.

Definition parser (documents : list (string * Doc)) : DocumentParser := {|
  Soup := Doc;
  BeautifulSoup := fun page => default (Node "" [] [] []) (assoc page documents);
  find := fun d sel => let 'Node _ _ found _ := d in assoc sel found;
  find_all := fun d sel => let 'Node _ _ _ all := d in default [] (assoc sel all);
  text := fun d => let 'Node t _ _ _ := d in t;
  tag_get := fun d name => let 'Node _ attrs _ _ := d in assoc name attrs
|}.

Definition session (gets posts : list (string * Response)) : Session := {|
  session_get := fun address => assoc address gets;
  session_post := fun address _ => assoc address posts
|}.

Definition tools : Tools := {|
  calc_post_date_from_relative_str := fun s =>
    if String.eqb s "today" then Return 0
    else if String.eqb s "yesterday" then Return (-1)
    else Raise ValueError
|}.

Definition config : SearchConfig := {|
  keywords := ["python"];
  domain := "ca";
  city := "waterloo";
  province_or_state := "ON";
  radius := 25
|}.

(** Two Monster listings: the first has no [time] element, the second
    has no company. *)
Definition monster_listing_1 : Doc :=
  Node "" []
    [(TagAttr "h2" "class" "title", Node " Python Developer " [] [] []);
     (TagAttr "div" "class" "company", Node "Acme" [] [] []);
     (TagAttr "div" "class" "location", Node "Waterloo, ON" [] [] []);
     (TagAttr "a" "data-bypass" "true",
      Node "" [("href", "https://job-openings.monster.ca/python-developer/0123abcd-0123-4abc-9def-0123456789ab")]
           [] [])]
    [].

Definition monster_listing_2 : Doc :=
  Node "" []
    [(TagAttr "h2" "class" "title", Node "Data Engineer" [] [] []);
     (TagAttr "div" "class" "location", Node "Kitchener, ON" [] [] []);
     (Tag "time", Node "today" [] [] []);
     (TagAttr "a" "data-bypass" "true",
      Node "" [("href", "https://job-openings.monster.ca/data-engineer/219876543")]
           [] [])]
    [].

Definition monster_search_url : string :=
  "https://www.monster.ca/jobs/search/?q=python&where=waterloo__2C-ON&intcid=skr_navigation_nhpso_searchMain&rad=20&where=waterloo__2c-ON".

(** Two GlassDoor listings. *)
Definition glassdoor_listing_1 : Doc :=
  Node "" [("data-normalize-job-title", "Python Developer");
           ("data-job-loc", "Waterloo"); ("data-id", "3001")]
    [(TagAttrSet "div" "class" "jobInfoItem jobEmpolyerName", Node "Acme" [] [] []);
     (TagAttrSet "div" "class" "logoWrap",
      Node "" [] [(Tag "a", Node "" [("href", "/partner/job?id=3001")] [] [])] [])]
    [].

Definition glassdoor_listing_2 : Doc :=
  Node "" [("data-normalize-job-title", "Data Engineer");
           ("data-job-loc", "Kitchener"); ("data-id", "3002")]
    [(TagAttrSet "div" "class" "logoWrap",
      Node "" [] [(Tag "a", Node "" [("href", "/partner/job?id=3002")] [] [])] [])]
    [].

Definition glassdoor_search_url : string := "https://www.glassdoor.ca/Job/jobs.htm".

(** A second search, whose next link carries no page number. *)
Definition glassdoor_plain_url : string := "https://www.glassdoor.ca/Job/plain.htm".

Definition glassdoor_data : FormData := [("sc.keyword", "python")].

Definition documents : list (string * Doc) :=
  [("monster: 60 jobs",
    Node "" []
      [(TagClass "h2" "figure", Node " (60 Jobs Found) " [] [] [])]
      [(TagAttr "div" "class" "flex-row", [monster_listing_1])]);
   ("monster: pages up to 3",
    Node "" [] []
      [(TagAttr "div" "class" "flex-row", [monster_listing_1; monster_listing_2])]);
   ("glassdoor: 65 jobs",
    Node "" []
      [(TagAttrSet "p" "class" "jobsCount", Node "65 Jobs" [] [] []);
       (TagAttrSet "li" "class" "next",
        Node "" []
          [(Tag "a", Node "" [("href", "/Job/python-jobs-SRCH_KO0,6_IP2.htm")] [] [])]
          [])]
      [(TagAttrSet "li" "class" "jl", [glassdoor_listing_1])]);
   ("glassdoor: page 2",
    Node "" [] [] [(TagAttrSet "li" "class" "jl", [glassdoor_listing_2])]);
   ("glassdoor: plain next link",
    Node "" []
      [(TagAttrSet "p" "class" "jobsCount", Node "65 Jobs" [] [] []);
       (TagAttrSet "li" "class" "next",
        Node "" []
          [(Tag "a", Node "" [("href", "/Job/python-jobs.htm")] [] [])]
          [])]
      [(TagAttrSet "li" "class" "jl", [glassdoor_listing_1])])].

(** The third GlassDoor page and the listing address of the Monster
    search (60 jobs, 25 per page: [&start=3]) are not served: the request
    raises. *)
Definition gets : list (string * Response) :=
  [(monster_search_url,
    {| url := monster_search_url; response_text := "monster: 60 jobs" |});
   (glassdoor_search_url,
    {| url := glassdoor_search_url; response_text := "glassdoor: 65 jobs" |});
   ("https://www.glassdoor.ca/Job/python-jobs-SRCH_KO0,6_IP2.htm",
    {| url := "https://www.glassdoor.ca/Job/python-jobs-SRCH_KO0,6_IP2.htm";
       response_text := "glassdoor: page 2" |});
   (glassdoor_plain_url,
    {| url := glassdoor_plain_url; response_text := "glassdoor: plain next link" |});
   ("https://www.glassdoor.ca/Job/python-jobs.htm",
    {| url := "https://www.glassdoor.ca/Job/python-jobs.htm";
       response_text := "glassdoor: page 2" |})].

Definition posts : list (string * Response) :=
  [(glassdoor_search_url,
    {| url := glassdoor_search_url; response_text := "glassdoor: 65 jobs" |});
   (glassdoor_plain_url,
    {| url := glassdoor_plain_url; response_text := "glassdoor: plain next link" |})].

Definition bs4 : DocumentParser := parser documents.

Definition requests_session : Session := session gets posts.



(** A count of 400 digits. *)
Definition long_count : string := string_of_list_ascii (repeat "9"%char 400).

End Fixture.

(** The lists that a future has still to append to the shared list, each
    as one block. *)
Definition owed_blocks `{DocumentParser} `{Session} (f : GlassDoor.Future)
  : list (list Soup) :=
  match f with
  | GlassDoor.Pending address => [GlassDoor.page_listings address]
  | GlassDoor.Fetched job => [job]
  | _ => []
  end.

(** ** config/funnel.py *)

Module Funnel.

(** The exceptions of this module: a missing key of a dict, and the
    ValueError that [scrapers] raises itself. *)
Inductive Error := KeyError | ValueError.

Inductive outcome (A : Type) :=
| Got (a : A)
| Fail (e : Error).
Arguments Got {A} a.
Arguments Fail {A} e.

Section Config.
(** [jobfunnel.resources] and [jobfunnel.backend.scrapers.registry] are not
    among the sources: the providers, the locales, the scraper classes and
    the two registries (dicts of dicts) are taken as given. *)
Context {Provider Locale ScraperClass : Type}.
Context `{Countable Provider} `{Countable Locale}.
Variable SCRAPER_FROM_LOCALE : gmap Provider (gmap Locale ScraperClass).
Variable DRIVEN_SCRAPER_FROM_LOCALE : gmap Provider (gmap Locale ScraperClass).

(** What [scrapers] reads of the config: [search_config.providers],
    [search_config.locale] and [web_driven_scraping]. *)
Record JobFunnelConfig := {
  providers : list Provider;
  locale : Locale;
  web_driven_scraping : bool
}.

(** [registry[pr][locale]], for [pr] a key of [registry]. *)
Definition entry (registry : gmap Provider (gmap Locale ScraperClass))
    (pr : Provider) (l : Locale) : outcome ScraperClass :=
  match registry !! pr ≫= (fun by_locale => by_locale !! l) with
  | Some scraper => Got scraper
  | None => Fail KeyError
  end.

(** One turn of the loop of [scrapers]: the scraper appended for [pr]. *)
Definition scraper_of (self : JobFunnelConfig) (pr : Provider)
  : outcome ScraperClass :=
  if web_driven_scraping self
     && bool_decide (is_Some (DRIVEN_SCRAPER_FROM_LOCALE !! pr))
  then entry DRIVEN_SCRAPER_FROM_LOCALE pr (locale self)
  else if bool_decide (is_Some (SCRAPER_FROM_LOCALE !! pr))
  then entry SCRAPER_FROM_LOCALE pr (locale self)
  else Fail ValueError.

(** The loop [for pr in self.search_config.providers], with the list
    [scrapers] built so far. *)
Fixpoint scrapers_from (self : JobFunnelConfig) (prs : list Provider)
    (scrapers : list ScraperClass) : outcome (list ScraperClass) :=
  match prs with
  | pr :: prs' =>
      match scraper_of self pr with
      | Got scraper => scrapers_from self prs' (scrapers ++ [scraper])
      | Fail e => Fail e
      end
  | [] => Got scrapers
  end.

(** The property [scrapers]. *)
Definition scrapers (self : JobFunnelConfig) : outcome (list ScraperClass) :=
  scrapers_from self (providers self) [].

(** The registry that [scrapers] reads for a provider. *)
Definition registry_of (self : JobFunnelConfig) (pr : Provider)
  : gmap Provider (gmap Locale ScraperClass) :=
  if web_driven_scraping self
     && bool_decide (is_Some (DRIVEN_SCRAPER_FROM_LOCALE !! pr))
  then DRIVEN_SCRAPER_FROM_LOCALE
  else SCRAPER_FROM_LOCALE.

End Config.

End Funnel.

(** ** More example pages: searches without result, without next link *)

Module Edge.

Definition empty_url : string := "https://www.glassdoor.ca/Job/empty.htm".

Definition linkless_url : string := "https://www.glassdoor.ca/Job/linkless.htm".

Definition countless_url : string := "https://www.glassdoor.ca/Job/countless.htm".

Definition documents : list (string * Fixture.Doc) :=
  [("glassdoor: 0 jobs",
    Fixture.Node "" []
      [(TagAttrSet "p" "class" "jobsCount", Fixture.Node " 0 Jobs " [] [] [])]
      [(TagAttrSet "li" "class" "jl", [Fixture.glassdoor_listing_1])]);
   ("glassdoor: 40 jobs, no next link",
    Fixture.Node "" []
      [(TagAttrSet "p" "class" "jobsCount", Fixture.Node "40 Jobs" [] [] [])]
      [(TagAttrSet "li" "class" "jl", [Fixture.glassdoor_listing_1])]);
   ("glassdoor: no count", Fixture.Node "" [] [] []);
   ("monster: no count", Fixture.Node "" [] [] []);
   ("monster: no jobs",
    Fixture.Node "" []
      [(TagClass "h2" "figure", Fixture.Node "Sorry, no jobs found" [] [] [])] [])].

Definition bs4 : DocumentParser := Fixture.parser documents.

Definition posts : list (string * Response) :=
  [(empty_url, {| url := empty_url; response_text := "glassdoor: 0 jobs" |});
   (linkless_url,
    {| url := linkless_url; response_text := "glassdoor: 40 jobs, no next link" |});
   (countless_url, {| url := countless_url; response_text := "glassdoor: no count" |})].

Definition gets : list (string * Response) :=
  [(empty_url, {| url := empty_url; response_text := "glassdoor: 0 jobs" |});
   (Fixture.monster_search_url,
    {| url := Fixture.monster_search_url; response_text := "monster: no jobs" |})].

Definition requests_session : Session := Fixture.session gets posts.

(** A listing whose link has no href. *)
Definition monster_listing_without_href : Fixture.Doc :=
  Fixture.Node "" []
    [(TagAttr "h2" "class" "title", Fixture.Node "Analyst" [] [] []);
     (TagAttr "div" "class" "company", Fixture.Node "Acme" [] [] []);
     (TagAttr "div" "class" "location", Fixture.Node "Guelph, ON" [] [] []);
     (TagAttr "a" "data-bypass" "true", Fixture.Node "" [] [] [])]
    [].

(** A GlassDoor listing whose root has no title attribute. *)
Definition glassdoor_listing_without_title : Fixture.Doc :=
  Fixture.Node "" [("data-job-loc", "Guelph"); ("data-id", "3003")]
    [(TagAttrSet "div" "class" "jobInfoItem jobEmpolyerName",
      Fixture.Node "Acme" [] [] []);
     (TagAttrSet "div" "class" "logoWrap",
      Fixture.Node "" []
        [(Tag "a", Fixture.Node "" [("href", "/partner/job?id=3003")] [] [])] [])]
    [].

(** A config whose domain ends in a page number, and a first page whose
    next link is a bare suffix: the address built from them is
    [https://www.glassdoor.x_IP1.htm]. *)
Definition numbered_domain_config : SearchConfig := {|
  keywords := ["python"];
  domain := "x_IP1";
  city := "waterloo";
  province_or_state := "ON";
  radius := 25
|}.

Definition page_with_bare_link : Fixture.Doc :=
  Fixture.Node "" []
    [(TagAttrSet "li" "class" "next",
      Fixture.Node "" []
        [(Tag "a", Fixture.Node "" [("href", ".htm")] [] [])] [])]
    [].

(** A pool at work: one page appended, one fetched and still to append. *)
Definition pool_at_work : @GlassDoor.Pool Fixture.bs4 :=
  @GlassDoor.Build_Pool Fixture.bs4
    [@GlassDoor.Fetched Fixture.bs4 [Fixture.glassdoor_listing_2]]
    [GET Fixture.glassdoor_search_url]
    [Fixture.glassdoor_listing_1].

(** Two registries of scraper classes, by provider and locale. *)
Definition registry : gmap string (gmap string string) :=
  {[ "MONSTER" := {[ "CANADA_ENGLISH" := "MonsterScraperCANEng";
                     "USA_ENGLISH" := "MonsterScraperUSAEng" ]};
     "GLASSDOOR" := {[ "CANADA_ENGLISH" := "StaticGlassDoorScraperCANEng" ]} ]}.

Definition driven_registry : gmap string (gmap string string) :=
  {[ "GLASSDOOR" := {[ "CANADA_ENGLISH" := "SeleniumGlassDoorScraperCANEng" ]} ]}.

Definition funnel_config (web_driven : bool) : @Funnel.JobFunnelConfig string string :=
  {| Funnel.providers := ["MONSTER"; "GLASSDOOR"];
     Funnel.locale := "CANADA_ENGLISH";
     Funnel.web_driven_scraping := web_driven |}.

End Edge.

(** ** The spec's words, for comparison *)

Module Spec.

(** "a numeric count embedded in page text, extracted via a
    regular-expression-style first run of digits rule after stripping
    thousands separators": one pass over the text, in which a comma is
    passed over and the digits met are accumulated until another
    character ends the run. *)
Fixpoint count_from (acc : option Z) (s : string) : option Z :=
  match s with
  | String c s' =>
      if Ascii.eqb c "," then count_from acc s'
      else if isdigit c then
        count_from (Some (10 * default 0 acc + digit_value c)) s'
      else
        match acc with
        | Some _ => acc
        | None => count_from None s'
        end
  | EmptyString => acc
  end.

Definition result_count (s : string) : option Z := count_from None s.

(** "no digit run is found in the count indicator" fails to hold: some
    character of the text is a digit. *)
Fixpoint contains_digit (s : string) : bool :=
  match s with
  | String c s' => isdigit c || contains_digit s'
  | EmptyString => false
  end.

(** "page count = ceil(n / pageSize)": [k] is the ceiling of [n / s]. *)
Definition is_ceiling (n s k : Z) : Prop := (k - 1) * s < n <= k * s.

(** "Invariant: required ⊆ fetchedFromListing ∪ fetchedFromDetail; a
    field never appears in both of the latter two sets for the same
    source." *)
Definition ExtractionSpec_invariant `{DocumentParser} (sc : Scraper) : Prop :=
  min_required_job_fields sc ⊆ job_get_fields sc ++ job_set_fields sc
  /\ job_get_fields sc ## job_set_fields sc.

End Spec.

(* ================================================================== *)
(** * Part II: theorems                                                *)
(* ================================================================== *)

(** ** Radius buckets *)

Definition radius_buckets (self : Monster.Class) : list Z :=
  match self with
  | Monster.MonsterScraperCANEng => [0; 5; 10; 20; 50; 100]
  | Monster.MonsterScraperUSAEng => [0; 5; 10; 20; 30; 40; 50; 60; 75; 100; 150; 200]
  end.

Ltac split_comparisons :=
  repeat match goal with
         | |- context [?a <? ?b] => destruct (Z.ltb_spec a b); try lia
         | |- context [?a <=? ?b] => destruct (Z.leb_spec a b); try lia
         end.

Lemma convert_radius_in_buckets (self : Monster.Class) (r : Z) :
  In (Monster._convert_radius self r) (radius_buckets self).
Proof.
  destruct self; unfold Monster._convert_radius;
    split_comparisons; simpl; tauto.
Qed.

Lemma convert_radius_monotone (self : Monster.Class) (r1 r2 : Z) :
  r1 <= r2 -> Monster._convert_radius self r1 <= Monster._convert_radius self r2.
Proof.
  intros Hle. destruct self; unfold Monster._convert_radius;
    split_comparisons; simpl; lia.
Qed.

Lemma convert_radius_fixes_buckets (self : Monster.Class) (b : Z) :
  In b (radius_buckets self) -> Monster._convert_radius self b = b.
Proof.
  destruct self; simpl; intros Hb;
    repeat (destruct Hb as [<- | Hb]; [reflexivity |]); destruct Hb.
Qed.

(** C10. For both locale variants, [_convert_radius] is idempotent and
    monotone over all integers, and its result is always one of the fixed
    bucket values of the locale (CAN: 0, 5, 10, 20, 50, 100; USA: 0, 5, 10,
    20, 30, 40, 50, 60, 75, 100, 150, 200). *)
Theorem convert_radius_idempotent_monotone (self : Monster.Class) (r r1 r2 : Z) :
  r1 <= r2 ->
  Monster._convert_radius self (Monster._convert_radius self r)
    = Monster._convert_radius self r
  /\ Monster._convert_radius self r1 <= Monster._convert_radius self r2
  /\ In (Monster._convert_radius self r) (radius_buckets self).
Proof.
  intros Hle. split; [| split].
  - apply convert_radius_fixes_buckets, convert_radius_in_buckets.
  - apply convert_radius_monotone, Hle.
  - apply convert_radius_in_buckets.
Qed.

Lemma convert_radius_idempotent_monotone_witness :
  7 <= 120
  /\ Monster._convert_radius Monster.MonsterScraperUSAEng
       (Monster._convert_radius Monster.MonsterScraperUSAEng 33)
     = Monster._convert_radius Monster.MonsterScraperUSAEng 33
  /\ Monster._convert_radius Monster.MonsterScraperUSAEng 7
     <= Monster._convert_radius Monster.MonsterScraperUSAEng 120
  /\ In (Monster._convert_radius Monster.MonsterScraperUSAEng 33)
        (radius_buckets Monster.MonsterScraperUSAEng).
Proof.
  split; [lia |].
  apply (convert_radius_idempotent_monotone Monster.MonsterScraperUSAEng 33 7 120).
  lia.
Defined.

(** ** Thousands separators and the first run of digits *)

Lemma findall_digits_head (t : string) :
  starts_with_digit t = true ->
  exists runs, findall_digits t = Re.digit_prefix t :: runs.
Proof.
  induction t as [| c t IH]; simpl; [discriminate |].
  intros Hc. rewrite Hc.
  destruct (starts_with_digit t) eqn:Ht.
  - destruct (IH eq_refl) as [runs ->]. eauto.
  - destruct t as [| c' t']; simpl in *; [eauto |].
    rewrite Ht. eauto.
Qed.

Lemma count_from_digits (s : string) (acc : Z) :
  Spec.count_from (Some acc) s
  = Some (int_of_digits_from acc (Re.digit_prefix (replace "," "" s))).
Proof.
  revert acc. induction s as [| c s IH]; intros acc; simpl; [reflexivity |].
  destruct (Ascii.eqb c ",") eqn:Hc; simpl.
  - apply IH.
  - destruct (isdigit c); simpl; [apply IH | reflexivity].
Qed.

Lemma count_from_findall (s : string) :
  Spec.result_count s
  = match findall_digits (replace "," "" s) with
    | run :: _ => Some (int_of_digits run)
    | [] => None
    end.
Proof.
  unfold Spec.result_count.
  induction s as [| c s IH]; simpl; [reflexivity |].
  destruct (Ascii.eqb c ",") eqn:Hc; simpl; [apply IH |].
  destruct (isdigit c) eqn:Hd.
  - rewrite count_from_digits.
    destruct (starts_with_digit (replace "," "" s)) eqn:Hs.
    + destruct (findall_digits_head _ Hs) as [runs ->]. reflexivity.
    + destruct (replace "," "" s) as [| c' t']; simpl in *; [reflexivity |].
      rewrite Hs. reflexivity.
  - apply IH.
Qed.

Lemma glassdoor_total_is_result_count (s : string) :
  GlassDoor.total_of_text s
  = match Spec.result_count s with
    | Some n =>
        if too_long (first_run (replace "," "" s)) then Raise ValueError
        else Return n
    | None => Raise IndexError
    end.
Proof.
  rewrite count_from_findall. unfold GlassDoor.total_of_text, first_run.
  destruct (findall_digits (replace "," "" s)); reflexivity.
Qed.

Lemma monster_total_without_separator (s : string) :
  replace "," "" s = s ->
  Monster.total_of_text s
  = match Spec.result_count s with
    | Some n => if too_long (first_run s) then Raise ValueError else Return n
    | None => Raise IndexError
    end.
Proof.
  intros Hs. pose proof (glassdoor_total_is_result_count s) as Hg.
  rewrite Hs in Hg. rewrite <- Hg.
  unfold Monster.total_of_text, GlassDoor.total_of_text. rewrite Hs. reflexivity.
Qed.

(** C2. For every result-count string the planners should extract the
    total as the first run of digits after stripping thousands separators,
    so that "1,234 jobs" yields 1234 and "87" yields 87.  The GlassDoor
    planner does so for every string whose run [int] converts (a run of
    more than 4300 digits raises ValueError).  The Monster planner does
    not strip the separators: on "1,234 jobs" it extracts 1, and plans 1
    page where a page size of 25 calls for 50. *)
Theorem monster_count_keeps_thousands_separator :
  (forall s, GlassDoor.total_of_text s
             = match Spec.result_count s with
               | Some n =>
                   if too_long (first_run (replace "," "" s))
                   then Raise ValueError else Return n
               | None => Raise IndexError
               end)
  /\ GlassDoor.total_of_text "1,234 jobs" = Return 1234
  /\ GlassDoor.total_of_text "87" = Return 87
  /\ Monster.total_of_text "87" = Return 87
  /\ Spec.result_count "1,234 jobs" = Some 1234
  /\ Monster.total_of_text "1,234 jobs" = Return 1
  /\ Monster.pages_of_text "1,234 jobs" = Return 1
  /\ GlassDoor.pages_of_text 25 "1,234 jobs" = Return 50.
Proof.
  split; [exact glassdoor_total_is_result_count |].
  repeat split; vm_compute; reflexivity.
Qed.

(** ** The field sets of the scrapers *)

Ltac elem_cases H :=
  repeat (apply elem_of_cons in H as [H | H]; [try subst |]);
  try (apply elem_of_nil in H; contradiction).

Lemma monster_fields_invariant :
  Monster.min_required_job_fields ⊆ Monster.job_get_fields ++ Monster.job_set_fields
  /\ Monster.job_get_fields ## Monster.job_set_fields.
Proof.
  split.
  - intros f Hf. unfold Monster.min_required_job_fields in Hf.
    elem_cases Hf; simpl; repeat constructor.
  - intros f Hget Hset. unfold Monster.job_set_fields in Hset.
    unfold Monster.job_get_fields in Hget.
    elem_cases Hset; elem_cases Hget; discriminate.
Qed.

Lemma glassdoor_fields_invariant :
  GlassDoor.min_required_job_fields ⊆ GlassDoor.job_get_fields ++ GlassDoor.job_set_fields
  /\ GlassDoor.job_get_fields ## GlassDoor.job_set_fields.
Proof.
  split.
  - intros f Hf. unfold GlassDoor.min_required_job_fields in Hf.
    elem_cases Hf; simpl; repeat constructor.
  - intros f Hget Hset. unfold GlassDoor.job_set_fields in Hset.
    unfold GlassDoor.job_get_fields in Hget.
    elem_cases Hset; elem_cases Hget; discriminate.
Qed.

(** C8. For every scraper (Monster and GlassDoor) the required field set
    is included in the union of the get-fields and the set-fields, and no
    field is both a get-field and a set-field of the same scraper. *)
Theorem extraction_spec_invariant `{DocumentParser} `{Session} `{Tools} :
  Spec.ExtractionSpec_invariant Monster.scraper
  /\ (forall config, Spec.ExtractionSpec_invariant (GlassDoor.scraper config)).
Proof.
  split; intros.
  - apply monster_fields_invariant.
  - apply glassdoor_fields_invariant.
Qed.

(** ** True division and the ceiling *)

Lemma scale_nonneg (k : Z) : 0 <= k -> scale k = 2 ^ k.
Proof. intros Hk. unfold scale. rewrite Z.max_r by lia. reflexivity. Qed.

Lemma scale_nonpos (k : Z) : k <= 0 -> scale k = 1.
Proof. intros Hk. unfold scale. rewrite Z.max_l by lia. reflexivity. Qed.

Lemma scale_pos (k : Z) : 0 < scale k.
Proof. unfold scale. apply Z.pow_pos_nonneg; lia. Qed.

Lemma pow2_pos (k : Z) : 0 <= k -> 0 < 2 ^ k.
Proof. intros Hk. apply Z.pow_pos_nonneg; lia. Qed.

Lemma pow2_split (x y : Z) : 0 <= x -> 0 <= y -> 2 ^ (x + y) = 2 ^ x * 2 ^ y.
Proof. intros Hx Hy. apply Z.pow_add_r; assumption. Qed.

Lemma round_half_even_bounds (p q : Z) :
  0 < q -> p / q <= round_half_even p q <= p / q + 1.
Proof.
  intros Hq. unfold round_half_even.
  repeat match goal with |- context [if ?c then _ else _] => destruct c end; lia.
Qed.

Lemma round_half_even_exact (p q : Z) :
  0 < q -> p mod q = 0 -> round_half_even p q = p / q.
Proof.
  intros Hq Hr. unfold round_half_even. rewrite Hr.
  destruct (Z.ltb_spec (2 * 0) q); [reflexivity | lia].
Qed.

Lemma round_half_even_up (p q : Z) :
  0 < q -> q < 2 * (p mod q) -> round_half_even p q = p / q + 1.
Proof.
  intros Hq Hr. unfold round_half_even.
  destruct (Z.ltb_spec (2 * (p mod q)) q); [lia |].
  destruct (Z.ltb_spec q (2 * (p mod q))); [reflexivity | lia].
Qed.

(** The exponent chosen for the quotient is not above the true one. *)
Lemma quotient_exponent_lower (a b : Z) :
  0 < a < 2 ^ 53 -> 0 < b < 2 ^ 53 ->
  - 53 <= quotient_exponent a b <= 52
  /\ 2 ^ 52 * b <= a * 2 ^ (52 - quotient_exponent a b).
Proof.
  intros Ha Hb. unfold quotient_exponent. cbv zeta.
  pose proof (Z.log2_spec a ltac:(lia)) as Hla.
  pose proof (Z.log2_spec b ltac:(lia)) as Hlb.
  pose proof (Z.log2_nonneg a) as Hla0.
  pose proof (Z.log2_nonneg b) as Hlb0.
  assert (Z.log2 a < 53) as Hla1 by (apply Z.log2_lt_pow2; lia).
  assert (Z.log2 b < 53) as Hlb1 by (apply Z.log2_lt_pow2; lia).
  set (la := Z.log2 a) in *. set (lb := Z.log2 b) in *. clearbody la lb.
  replace (Z.succ la) with (la + 1) in Hla by lia.
  replace (Z.succ lb) with (lb + 1) in Hlb by lia.
  destruct (Z.ltb_spec (a * scale (- (la - lb))) (b * scale (la - lb))) as [Hlt | Hge].
  - split; [lia |].
    replace (52 - (la - lb - 1)) with (53 - la + lb) by lia.
    assert (2 ^ la * 2 ^ (53 - la + lb) = 2 ^ 52 * 2 ^ (lb + 1)) as Heq.
    { rewrite <- !pow2_split by lia. f_equal. lia. }
    pose proof (pow2_pos (53 - la + lb) ltac:(lia)) as HX.
    apply Z.le_trans with (2 ^ la * 2 ^ (53 - la + lb)).
    + rewrite Heq. apply Z.mul_le_mono_nonneg_l; lia.
    + apply Z.mul_le_mono_nonneg_r; lia.
  - split; [lia |].
    destruct (Z.le_gt_cases 0 (la - lb)) as [Hd | Hd].
    + rewrite (scale_nonpos (- (la - lb))), (scale_nonneg (la - lb)) in Hge by lia.
      assert (2 ^ (la - lb) * 2 ^ (52 - (la - lb)) = 2 ^ 52) as Heq.
      { rewrite <- pow2_split by lia. f_equal. lia. }
      pose proof (pow2_pos (52 - (la - lb)) ltac:(lia)) as HX.
      rewrite <- Heq, (Z.mul_comm (2 ^ (la - lb))), <- Z.mul_assoc.
      rewrite (Z.mul_comm (2 ^ (52 - (la - lb)))).
      apply Z.mul_le_mono_nonneg_r; lia.
    + rewrite (scale_nonneg (- (la - lb))), (scale_nonpos (la - lb)) in Hge by lia.
      assert (2 ^ (- (la - lb)) * 2 ^ 52 = 2 ^ (52 - (la - lb))) as Heq.
      { rewrite <- pow2_split by lia. f_equal. lia. }
      rewrite <- Heq, Z.mul_assoc, (Z.mul_comm (2 ^ 52)).
      apply Z.mul_le_mono_nonneg_r; lia.
Qed.

Lemma ceil_quotient (m k c : Z) :
  0 < k -> (c - 1) * k < m <= c * k -> - ((- m) / k) = c.
Proof.
  intros Hk Hm.
  assert ((- m) / k = - c) as ->; [| lia].
  symmetry. apply (Z.div_unique_pos _ _ _ (c * k - m)); lia.
Qed.

(** Within the range where every int is a float, [ceil(a / b)] is the
    exact ceiling of the quotient. *)
Lemma truediv_ceil_exact (a b : Z) :
  0 < a < 2 ^ 53 -> 0 < b < 2 ^ 53 ->
  exists x, truediv a b = Return x /\ Spec.is_ceiling a b (ceil x).
Proof.
  intros Ha Hb.
  destruct (quotient_exponent_lower a b Ha Hb) as [He Hlow].
  unfold truediv.
  destruct (Z.eqb_spec b 0); [lia |].
  destruct (Z.eqb_spec a 0); [lia |].
  rewrite !Z.abs_eq, !Z.sgn_pos by lia.
  set (e := quotient_exponent a b) in *. clearbody e.
  rewrite Z.min_l by lia.
  set (sh := 52 - e) in *.
  rewrite (scale_nonneg sh), (scale_nonpos (- sh)), !Z.mul_1_r by lia.
  set (K := 2 ^ sh) in *.
  assert (0 < K) as HK by (apply pow2_pos; lia).
  set (m := round_half_even (a * K) b).
  pose proof (round_half_even_bounds (a * K) b ltac:(lia)) as Hm. fold m in Hm.
  pose proof (Z.div_mod a b ltac:(lia)) as Hdiv.
  pose proof (Z.mod_pos_bound a b ltac:(lia)) as Hr.
  set (f := a / b) in *. set (r := a mod b) in *.
  assert (a * K = (f * K) * b + r * K) as HaK by nia.
  assert ((a * K) / b <= a * K) as Hq.
  { apply Z.div_le_upper_bound; nia. }
  assert (2 ^ 1024 = 2 ^ 53 * 2 ^ 971) as Hbig by (rewrite <- pow2_split by lia; reflexivity).
  pose proof (pow2_pos 971 ltac:(lia)) as H971.
  destruct (Z.leb_spec (2 ^ 1024 * K) m) as [Hover | _]; [nia |].
  eexists. split; [reflexivity |].
  assert (ceil (Float (1 * m) (- sh)) = - ((- m) / K)) as ->.
  { unfold ceil; simpl. rewrite Z.mul_1_l.
    destruct (Z.leb_spec 0 (- sh)).
    - assert (sh = 0) as Hsh by lia. unfold K. rewrite Hsh. simpl.
      rewrite Z.div_1_r. lia.
    - rewrite Z.opp_involutive. reflexivity. }
  assert (b < 2 * K) as HbK by nia.
  pose proof (Z.div_mod (a * K) b ltac:(lia)) as HdivK.
  pose proof (Z.mod_pos_bound (a * K) b ltac:(lia)) as HrK.
  destruct (Z.eq_dec r 0) as [Hr0 | Hr0].
  - assert ((a * K) mod b = 0) as Hmod0.
    { rewrite HaK, Hr0, Z.mul_0_l, Z.add_0_r. apply Z.mod_mul. lia. }
    assert (m = f * K) as Hmf.
    { unfold m. rewrite round_half_even_exact by (lia || assumption).
      rewrite HaK, Hr0, Z.mul_0_l, Z.add_0_r. apply Z.div_mul. lia. }
    rewrite (ceil_quotient m K f) by nia.
    unfold Spec.is_ceiling. nia.
  - assert (f * K <= (a * K) / b) as Hq1.
    { apply Z.div_le_lower_bound; nia. }
    assert ((a * K) / b < f * K + K) as Hq2.
    { apply Z.div_lt_upper_bound; nia. }
    assert (f * K + 1 <= m) as Hm1.
    { destruct (Z.eq_dec ((a * K) / b) (f * K)) as [Hqeq | Hqne]; [| lia].
      unfold m. rewrite round_half_even_up; [lia | lia |].
      rewrite Hqeq in HdivK. nia. }
    rewrite (ceil_quotient m K (f + 1)) by nia.
    unfold Spec.is_ceiling. nia.
Qed.

Lemma truediv_returns (a b : Z) :
  0 <= a < 2 ^ 1023 -> 0 < b -> returns (truediv a b).
Proof.
  intros Ha Hb. unfold truediv.
  destruct (Z.eqb_spec b 0); [lia |].
  destruct (Z.eqb_spec a 0); [exact I |].
  rewrite !Z.abs_eq, !Z.sgn_pos by lia.
  assert (quotient_exponent a b <= 1022) as He.
  { unfold quotient_exponent.
    assert (Z.log2 a < 1023) by (apply Z.log2_lt_pow2; lia).
    pose proof (Z.log2_nonneg b).
    destruct (_ <? _); lia. }
  set (e := quotient_exponent a b) in *. clearbody e.
  set (sh := Z.min (52 - e) 1074).
  assert (2 ^ 1024 = 2 * 2 ^ 1023) as Hbig by reflexivity.
  destruct (Z.le_gt_cases 0 sh) as [Hsh | Hsh].
  - rewrite (scale_nonneg sh), (scale_nonpos (- sh)), !Z.mul_1_r by lia.
    pose proof (pow2_pos sh Hsh) as HK. set (K := 2 ^ sh) in *.
    pose proof (round_half_even_bounds (a * K) b Hb) as Hm.
    assert ((a * K) / b <= a * K) as Hq by (apply Z.div_le_upper_bound; nia).
    destruct (Z.leb_spec (2 ^ 1024 * K) (round_half_even (a * K) b)); [nia | exact I].
  - rewrite (scale_nonpos sh), (scale_nonneg (- sh)), !Z.mul_1_r by lia.
    assert (0 <= - sh <= 970) as Hrange by lia.
    pose proof (pow2_pos (- sh) ltac:(lia)) as HL.
    assert (2 ^ (- sh) <= 2 ^ 970) as HL970 by (apply Z.pow_le_mono_r; lia).
    assert (2 ^ 1023 = 2 ^ 53 * 2 ^ 970) as H1023 by reflexivity.
    pose proof (pow2_pos 970 ltac:(lia)) as H970.
    set (L := 2 ^ (- sh)) in *.
    pose proof (round_half_even_bounds a (b * L) ltac:(nia)) as Hm.
    assert (a / (b * L) * L <= a) as Hq.
    { pose proof (Z.mul_div_le a (b * L) ltac:(nia)).
      assert (0 <= a / (b * L)) by (apply Z.div_pos; nia). nia. }
    destruct (Z.leb_spec (2 ^ 1024) (round_half_even a (b * L) * L)); [nia | exact I].
Qed.

(** ** The page count of the planners *)

Lemma findall_digits_nil (t : string) :
  findall_digits t = [] <-> Spec.contains_digit t = false.
Proof.
  induction t as [| c t IH]; simpl; [tauto |].
  destruct (isdigit c); simpl; [| exact IH].
  split; [| discriminate].
  destruct (starts_with_digit t); [destruct (findall_digits t) |]; discriminate.
Qed.

Lemma contains_digit_replace_comma (t : string) :
  Spec.contains_digit (replace "," "" t) = Spec.contains_digit t.
Proof.
  induction t as [| c t IH]; simpl; [reflexivity |].
  destruct (Ascii.eqb_spec c ","); simpl.
  - subst c. simpl. exact IH.
  - rewrite IH. reflexivity.
Qed.

Lemma digit_prefix_all_digits (t : string) : Re.all_digits (Re.digit_prefix t) = true.
Proof.
  induction t as [| c t IH]; simpl; [reflexivity |].
  destruct (isdigit c) eqn:Hc; simpl; [| reflexivity].
  rewrite Hc, IH. reflexivity.
Qed.

Lemma findall_digits_runs (t : string) :
  Forall (fun run => Re.all_digits run = true) (findall_digits t).
Proof.
  induction t as [| c t IH]; simpl; [constructor |].
  destruct (isdigit c) eqn:Hc; [| exact IH].
  destruct (starts_with_digit t).
  - destruct (findall_digits t) as [| run runs].
    + repeat constructor. simpl. rewrite Hc. reflexivity.
    + inversion IH; subst. constructor; [| assumption].
      simpl. rewrite Hc. assumption.
  - constructor; [| exact IH]. simpl. rewrite Hc. reflexivity.
Qed.

Lemma digit_value_range (c : ascii) : isdigit c = true -> 0 <= digit_value c <= 9.
Proof.
  unfold isdigit, digit_value. intros Hc.
  apply andb_prop in Hc as [Hlo Hhi].
  apply Nat.leb_le in Hlo, Hhi. lia.
Qed.

Lemma int_of_digits_from_nonneg (s : string) (acc : Z) :
  Re.all_digits s = true -> 0 <= acc -> 0 <= int_of_digits_from acc s.
Proof.
  revert acc. induction s as [| c s IH]; intros acc Hs Hacc; simpl; [assumption |].
  simpl in Hs. apply andb_prop in Hs as [Hc Hs].
  apply IH; [assumption |]. pose proof (digit_value_range c Hc). lia.
Qed.

Lemma first_run_nonneg (t run : string) (runs : list string) :
  findall_digits t = run :: runs -> 0 <= int_of_digits run.
Proof.
  intros Ht. pose proof (findall_digits_runs t) as Hall.
  rewrite Ht in Hall. inversion Hall; subst.
  apply int_of_digits_from_nonneg; [assumption | lia].
Qed.

Lemma page_count_returns (n s : Z) :
  0 <= n < 2 ^ 1023 -> 0 < s -> returns (page_count n s).
Proof.
  intros Hn Hs. unfold page_count.
  pose proof (truediv_returns n s Hn Hs) as Hdiv.
  destruct (truediv n s); [exact I | contradiction].
Qed.

Lemma page_count_zero (s : Z) : s <> 0 -> page_count 0 s = Return 0.
Proof.
  intros Hs. unfold page_count, truediv.
  destruct (Z.eqb_spec s 0); [contradiction | reflexivity].
Qed.

Lemma page_count_ceiling (n s : Z) :
  0 <= n < 2 ^ 53 -> 0 < s < 2 ^ 53 ->
  exists k, page_count n s = Return k /\ Spec.is_ceiling n s k.
Proof.
  intros Hn Hs. destruct (Z.eq_dec n 0) as [-> | Hn0].
  - exists 0. split; [apply page_count_zero; lia |]. unfold Spec.is_ceiling. lia.
  - destruct (truediv_ceil_exact n s ltac:(lia) Hs) as [x [Hx Hceil]].
    exists (ceil x). split; [| assumption].
    unfold page_count. rewrite Hx. reflexivity.
Qed.

(** The count text decides alone whether the page count is computed, as
    long as [int] converts the run and the quotient stays in the range of
    a float. *)
Lemma pages_raise_without_digits (s : Z) (t : string) :
  0 < s ->
  too_long (first_run t) = false ->
  (forall n, index0 (findall_digits t) ≫= int_of_str = Return n -> n < 2 ^ 1023) ->
  raises (n ← (index0 (findall_digits t) ≫= int_of_str); page_count n s)
  <-> Spec.contains_digit t = false.
Proof.
  intros Hs Hlimit Hbound. rewrite <- findall_digits_nil.
  unfold first_run in Hlimit.
  destruct (findall_digits t) as [| run runs] eqn:Ht; simpl.
  - tauto.
  - pose proof (first_run_nonneg t run runs Ht) as Hnonneg.
    pose proof (page_count_returns (int_of_digits run) s) as Hret.
    simpl in Hbound, Hlimit. unfold int_of_str in *. rewrite Hlimit in *.
    specialize (Hbound _ eq_refl).
    specialize (Hret ltac:(lia) Hs). simpl.
    destruct (page_count (int_of_digits run) s); simpl in *; split; try tauto; discriminate.
Qed.

(** Without a digit the failure is the IndexError of [[][0]]. *)
Lemma pages_raise_IndexError (s : Z) (t : string) :
  Spec.contains_digit t = false ->
  (n ← (index0 (findall_digits t) ≫= int_of_str); page_count n s) = Raise IndexError.
Proof.
  intros Ht. apply findall_digits_nil in Ht. rewrite Ht. reflexivity.
Qed.

(** A run beyond the limit of [int] fails with ValueError, before the
    division. *)
Lemma pages_raise_ValueError (s : Z) (t : string) :
  too_long (first_run t) = true ->
  (n ← (index0 (findall_digits t) ≫= int_of_str); page_count n s) = Raise ValueError.
Proof.
  unfold first_run. destruct (findall_digits t) as [| run runs]; simpl.
  - intros Hempty. vm_compute in Hempty. discriminate.
  - intros Hrun. unfold int_of_str. rewrite Hrun. reflexivity.
Qed.

(** C4 (amended). For every extracted total n and page size s below
    2^53, the planner's page count is ceil(n / s), for the shared
    computation and for both planners; n = 230 with s = 50 gives 5 pages
    and n = 0 gives 0 pages. *)
Theorem page_count_is_ceiling (n s : Z) (t : string) :
  0 <= n < 2 ^ 53 -> 0 < s < 2 ^ 53 ->
  (exists k, page_count n s = Return k /\ Spec.is_ceiling n s k)
  /\ (Monster.total_of_text t = Return n ->
      exists k, Monster.pages_of_text t = Return k
                /\ Spec.is_ceiling n Monster.MAX_RESULTS_PER_MONSTER_PAGE k)
  /\ (GlassDoor.total_of_text t = Return n ->
      exists k, GlassDoor.pages_of_text s t = Return k /\ Spec.is_ceiling n s k)
  /\ page_count 230 50 = Return 5
  /\ page_count 0 s = Return 0.
Proof.
  intros Hn Hs. split; [apply page_count_ceiling; assumption |].
  split; [| split; [| split]].
  - intros Ht. unfold Monster.pages_of_text. rewrite Ht. simpl.
    apply page_count_ceiling; [assumption |].
    unfold Monster.MAX_RESULTS_PER_MONSTER_PAGE. lia.
  - intros Ht. unfold GlassDoor.pages_of_text. rewrite Ht. simpl.
    apply page_count_ceiling; assumption.
  - vm_compute. reflexivity.
  - apply page_count_zero. lia.
Qed.

Lemma page_count_is_ceiling_witness :
  0 <= 87 < 2 ^ 53 /\ 0 < 25 < 2 ^ 53
  /\ (exists k, page_count 87 25 = Return k /\ Spec.is_ceiling 87 25 k)
  /\ (Monster.total_of_text "87 jobs" = Return 87 ->
      exists k, Monster.pages_of_text "87 jobs" = Return k
                /\ Spec.is_ceiling 87 Monster.MAX_RESULTS_PER_MONSTER_PAGE k)
  /\ (GlassDoor.total_of_text "87 jobs" = Return 87 ->
      exists k, GlassDoor.pages_of_text 25 "87 jobs" = Return k
                /\ Spec.is_ceiling 87 25 k)
  /\ page_count 230 50 = Return 5
  /\ page_count 0 25 = Return 0.
Proof.
  split; [lia |]. split; [lia |].
  apply (page_count_is_ceiling 87 25 "87 jobs"); lia.
Defined.

(** C4 as stated fails beyond the precision of a float: for the total
    225179981368524801 = 25 * 2^53 + 1 the Monster planner computes 2^53
    pages, one less than the ceiling. *)
Lemma page_count_rounds_large_totals :
  ~ (forall t n, Monster.total_of_text t = Return n ->
       exists k, Monster.pages_of_text t = Return k
                 /\ Spec.is_ceiling n Monster.MAX_RESULTS_PER_MONSTER_PAGE k).
Proof.
  intros Hclaim.
  destruct (Hclaim "225179981368524801 Jobs Found" 225179981368524801 eq_refl)
    as [k [Hk Hceil]].
  vm_compute in Hk. injection Hk as <-.
  unfold Spec.is_ceiling, Monster.MAX_RESULTS_PER_MONSTER_PAGE in Hceil. lia.
Qed.

(** ** The pool of page tasks *)

Section Pool.
Context `{DocumentParser} `{Session}.

Import GlassDoor.

Lemma bind_insert_split {A B} (g : A -> list B) (l : list A) (i : nat) (x : A) :
  l !! i = Some x ->
  exists rest, l ≫= g ≡ₚ g x ++ rest
               /\ forall y, <[i := y]> l ≫= g ≡ₚ g y ++ rest.
Proof.
  intros Hi. exists ((take i l ++ drop (S i) l) ≫= g).
  pose proof (lookup_lt_Some _ _ _ Hi) as Hlen.
  split.
  - rewrite <- (take_drop_middle l i x Hi) at 1.
    rewrite !bind_app, bind_cons. apply Permutation_app_swap_app.
  - intros y. rewrite insert_take_drop by assumption.
    rewrite !bind_app, bind_cons. apply Permutation_app_swap_app.
Qed.

Lemma step_keeps_totals (p p' : Pool) :
  step p p' ->
  requests p' ++ (futures_list p' ≫= owed_requests)
    ≡ₚ requests p ++ (futures_list p ≫= owed_requests)
  /\ job_soup_list p' ++ (futures_list p' ≫= owed_soups)
       ≡ₚ job_soup_list p ++ (futures_list p ≫= owed_soups).
Proof.
  intros Hstep.
  destruct Hstep as [p i address response Hi Hget | p i address Hi Hget | p i job Hi];
    simpl;
    destruct (bind_insert_split owed_requests _ _ _ Hi) as [rr [Hr Hr']];
    destruct (bind_insert_split owed_soups _ _ _ Hi) as [rs [Hs Hs']];
    rewrite Hr, Hs, Hr', Hs'; simpl; unfold page_listings; try rewrite Hget;
    rewrite <- ?app_assoc; simpl; split; reflexivity.
Qed.

Lemma finished_owes_nothing (fs : list Future) :
  Forall finished fs ->
  fs ≫= owed_requests = [] /\ fs ≫= owed_soups = [].
Proof.
  induction 1 as [| f fs Hf _ [IHr IHs]]; [split; reflexivity |].
  rewrite !bind_cons, IHr, IHs.
  destruct f; simpl in *; try contradiction; split; reflexivity.
Qed.

(** However the tasks interleave, the pool ends with the requests and
    the listings its futures owed at the beginning. *)
Lemma wait_totals (p p' : Pool) :
  wait p p' ->
  requests p' ≡ₚ requests p ++ (futures_list p ≫= owed_requests)
  /\ job_soup_list p' ≡ₚ job_soup_list p ++ (futures_list p ≫= owed_soups).
Proof.
  intros [Hrun Hdone].
  induction Hrun as [p | p q p' Hstep _ IH].
  - destruct (finished_owes_nothing _ Hdone) as [-> ->].
    rewrite !app_nil_r. split; reflexivity.
  - destruct (step_keeps_totals _ _ Hstep) as [Hr Hs].
    destruct (IH Hdone) as [IHr IHs].
    rewrite IHr, IHs, Hr, Hs. split; reflexivity.
Qed.

Lemma work_insert (fs : list Future) (i : nat) (f g : Future) :
  fs !! i = Some f ->
  (work (<[i := g]> fs) + steps_left f = work fs + steps_left g)%nat.
Proof.
  unfold work, fmap. revert i. induction fs as [| h fs IH]; intros i Hi; [discriminate |].
  destruct i as [| i]; simpl in *.
  - injection Hi as ->. lia.
  - specialize (IH i Hi). lia.
Qed.

Lemma unfinished_future (fs : list Future) :
  Forall finished fs
  \/ exists i f, fs !! i = Some f /\ (0 < steps_left f)%nat.
Proof.
  induction fs as [| h fs [IH | [i [f [Hi Hf]]]]].
  - left. constructor.
  - destruct h; simpl.
    + right. exists 0%nat, (Pending address). simpl. split; [reflexivity | lia].
    + right. exists 0%nat, (Fetched job). simpl. split; [reflexivity | lia].
    + left. constructor; [exact I | assumption].
    + left. constructor; [exact I | assumption].
  - right. exists (S i), f. split; assumption.
Qed.

Lemma wait_after_step (p q : Pool) :
  step p q -> (exists p', wait q p') -> exists p', wait p p'.
Proof.
  intros Hstep [p' [Hrun Hdone]]. exists p'.
  split; [eapply rtc_l; eassumption | assumption].
Qed.

(** The pool always comes to an end. *)
Lemma wait_exists (p : Pool) : exists p', wait p p'.
Proof.
  remember (work (futures_list p)) as n eqn:Hn.
  revert p Hn. induction n as [n IH] using lt_wf_ind. intros p Hn.
  destruct (unfinished_future (futures_list p)) as [Hdone | [i [f [Hi Hf]]]].
  { exists p. split; [apply rtc_refl | assumption]. }
  assert (forall q, step p q -> (work (futures_list q) < n)%nat ->
                    exists p', wait p p') as Hnext.
  { intros q Hstep Hlt. apply (wait_after_step p q Hstep).
    apply (IH _ Hlt q eq_refl). }
  destruct f as [address | job | |]; simpl in Hf; try lia.
  - destruct (session_get address) as [response |] eqn:Hget.
    + eapply Hnext; [apply (step_fetch p i address response Hi Hget) |].
      simpl. pose proof (work_insert _ i _
        (Fetched (find_all (BeautifulSoup (response_text response))
                           (TagAttrSet "li" "class" "jl"))) Hi) as Hw.
      simpl in Hw. lia.
    + eapply Hnext; [apply (step_fetch_raises p i address Hi Hget) |].
      simpl. pose proof (work_insert _ i _ (Failed RequestException) Hi) as Hw.
      simpl in Hw. lia.
  - eapply Hnext; [apply (step_extend p i job Hi) |].
    simpl. pose proof (work_insert _ i _ Done Hi) as Hw.
    simpl in Hw. lia.
Qed.

Lemma pending_owed (addresses : list string) :
  (Pending <$> addresses) ≫= owed_requests = GET <$> addresses
  /\ (Pending <$> addresses) ≫= owed_soups = addresses ≫= page_listings.
Proof.
  induction addresses as [| a l [IHr IHs]]; [split; reflexivity |].
  rewrite !fmap_cons, !bind_cons, IHr, IHs. split; reflexivity.
Qed.

End Pool.

(** ** GlassDoor: what the call returns *)

Lemma mapM_result_Forall2 {A B} (f : A -> result B) (l : list A) (k : list B) :
  mapM f l = Return k <-> Forall2 (fun x y => f x = Return y) l k.
Proof.
  revert k. induction l as [| x l IH]; intros k; simpl.
  - split.
    + intros [= <-]. constructor.
    + intros Hk. inversion Hk. reflexivity.
  - split.
    + destruct (f x) as [y |] eqn:Hx; simpl; [| discriminate].
      destruct (mapM f l) as [k' |] eqn:Hl; simpl; [| discriminate].
      intros [= <-]. constructor; [assumption | apply IH; reflexivity].
    + intros Hk. inversion Hk as [| ? y ? k' Hx Hl]; subst.
      apply IH in Hl. rewrite Hx; simpl. rewrite Hl; simpl. reflexivity.
Qed.

Section GlassDoorListing.
Context `{DocumentParser} `{Session}.
Variable config : SearchConfig.
Variable max_results_per_page : Z.
Variable search_url : string.
Variable data : FormData.

Import GlassDoor.

#[local] Abbreviation listings :=
  (get_job_soups_from_search_result_listings config max_results_per_page
                                             search_url data).
#[local] Abbreviation count := (_get_num_search_result_pages max_results_per_page).

Variable request_html : Response.
Hypothesis Hpost : session_post search_url data = Some request_html.

#[local] Abbreviation soup_base := (BeautifulSoup (response_text request_html)).

Lemma count_failure_is_the_outcome (e : Exception) (o : Outcome) :
  count soup_base = Raise e ->
  listings o <-> o = Raised e.
Proof.
  intros Hcount. split.
  - intros Ho. inversion Ho; subst; congruence.
  - intros ->. eapply count_raises; eassumption.
Qed.

Variable n_pages : Z.
Hypothesis Hcount : count soup_base = Return n_pages.

Lemma loop_failure_is_the_outcome (e : Exception) (o : Outcome) :
  submitted config request_html soup_base n_pages = Raise e ->
  listings o <-> o = Raised e.
Proof.
  intros Hloop. split.
  - intros Ho. inversion Ho; subst; congruence.
  - intros ->. eapply loop_raises; eassumption.
Qed.

Variable addresses : list string.
Hypothesis Hloop : submitted config request_html soup_base n_pages = Return addresses.

Lemma listings_returned (o : Outcome) :
  listings o ->
  exists soups reqs,
    o = Returned soups reqs
    /\ reqs ≡ₚ POST search_url data :: (GET <$> addresses)
    /\ soups ≡ₚ addresses ≫= page_listings.
Proof.
  intros Ho. inversion Ho as [| | | r n l p Hp Hc Hl Hwait]; subst; try congruence.
  assert (r = request_html) as -> by congruence.
  assert (n = n_pages) as -> by congruence.
  assert (l = addresses) as -> by congruence.
  destruct (wait_totals _ _ Hwait) as [Hr Hs]. simpl in Hr, Hs.
  destruct (pending_owed addresses) as [Hor Hos].
  rewrite Hor in Hr. rewrite Hos in Hs.
  exists (job_soup_list p), (requests p). auto.
Qed.

Lemma listings_return : exists soups reqs, listings (Returned soups reqs).
Proof.
  destruct (wait_exists {| futures_list := Pending <$> addresses;
                           requests := [POST search_url data];
                           job_soup_list := [] |}) as [p Hwait].
  exists (job_soup_list p), (requests p).
  eapply pool_returns; eassumption.
Qed.

End GlassDoorListing.

(** ** Validation of one listing *)

Section Validation.
Context `{DocumentParser}.
Variable sc : Scraper.

Import BaseScraper.

Lemma extracted_spec (v : Value) : extracted v = true <-> v <> VNone.
Proof. destruct v; simpl; split; congruence. Qed.

Lemma extractFromListing_Some (f : JobField) (soup : Soup) (v : Value) :
  extractFromListing sc f soup = Some v
  <-> get sc f soup = Return v /\ v <> VNone.
Proof.
  unfold extractFromListing. destruct (get sc f soup) as [w | e].
  - destruct (extracted w) eqn:Hw; split.
    + intros [= <-]. split; [reflexivity | apply extracted_spec, Hw].
    + intros [[= <-] _]. reflexivity.
    + discriminate.
    + intros [[= <-] Hv]. apply extracted_spec in Hv. congruence.
  - split; [discriminate | intros [[=] _]].
Qed.

Lemma extractFromListing_None (f : JobField) (soup : Soup) :
  extractFromListing sc f soup = None
  <-> raises (get sc f soup) \/ get sc f soup = Return VNone.
Proof.
  unfold extractFromListing. destruct (get sc f soup) as [w | e]; simpl.
  - destruct w; simpl; split; try discriminate; try tauto;
      intros [[] | [=]].
  - tauto.
Qed.

Lemma get_all_lookup (fields : list JobField) (soup : Soup) (job : Job) (f : JobField) :
  get_all sc fields soup job !! f
  = if decide (f ∈ fields) then
      match extractFromListing sc f soup with
      | Some v => Some v
      | None => job !! f
      end
    else job !! f.
Proof.
  revert job. induction fields as [| g fields IH]; intros job; simpl.
  - destruct (decide (f ∈ [])) as [Hin | _]; [| reflexivity].
    apply elem_of_nil in Hin. contradiction.
  - destruct (decide (f = g)) as [-> | Hne].
    + destruct (decide (g ∈ g :: fields)) as [_ | Hnin];
        [| exfalso; apply Hnin; constructor].
      destruct (extractFromListing sc g soup) as [v |]; rewrite IH.
      * destruct (decide (g ∈ fields)); [reflexivity | apply lookup_insert_eq].
      * destruct (decide (g ∈ fields)); reflexivity.
    + assert (get_all sc fields soup
                (match extractFromListing sc g soup with
                 | Some v => <[g := v]> job
                 | None => job
                 end) !! f
              = if decide (f ∈ fields) then
                  match extractFromListing sc f soup with
                  | Some v => Some v
                  | None => job !! f
                  end
                else job !! f) as Hrest.
      { rewrite IH.
        destruct (extractFromListing sc g soup);
          [rewrite lookup_insert_ne by congruence |]; reflexivity. }
      destruct (extractFromListing sc g soup); rewrite Hrest;
        destruct (decide (f ∈ fields)) as [Hin | Hnin];
        destruct (decide (f ∈ g :: fields)) as [Hin' | Hnin']; try reflexivity;
        try (exfalso; apply Hnin'; constructor; assumption);
        apply elem_of_cons in Hin' as [? | ?]; contradiction.
Qed.

(** What the listing phase leaves in the record for a field. *)
Lemma get_all_empty_lookup (soup : Soup) (f : JobField) :
  get_all sc (job_get_fields sc) soup ∅ !! f
  = if decide (f ∈ job_get_fields sc) then extractFromListing sc f soup else None.
Proof.
  rewrite get_all_lookup, lookup_empty.
  destruct (decide _); [| reflexivity].
  destruct (extractFromListing sc f soup); reflexivity.
Qed.

Lemma accepted_spec (job : Job) :
  accepted sc job = true
  <-> forall f, f ∈ min_required_job_fields sc ->
        exists v, job !! f = Some v /\ v <> VNone.
Proof.
  unfold accepted. rewrite forallb_forall. split.
  - intros Hall f Hf. apply list_elem_of_In in Hf. specialize (Hall f Hf).
    destruct (job !! f) as [v |]; [| discriminate].
    exists v. split; [reflexivity | apply extracted_spec, Hall].
  - intros Hall f Hf. apply list_elem_of_In in Hf.
    destruct (Hall f Hf) as [v [-> Hv]]. apply extracted_spec, Hv.
Qed.

Hypothesis Hset : set_writes_its_field sc.

(** The detail phase never raises and leaves the other fields alone. *)
Lemma set_all_returns (fields : list JobField) (soup : Soup) (job : Job)
    (log : list Request) :
  exists job' log',
    set_all sc fields soup job log = (Return job', log')
    /\ forall f, f ∉ fields -> job' !! f = job !! f.
Proof.
  revert job log. induction fields as [| g fields IH]; intros job log; simpl.
  - exists job, log. split; reflexivity.
  - destruct (set sc g job soup log) as [[job1 | e] log1] eqn:Hg.
    + destruct (Hset _ _ _ _ _ _ Hg) as [v ->].
      destruct (IH (<[g := v]> job) log1) as [job' [log' [Hrun Hframe]]].
      exists job', log'. split; [assumption |].
      intros f Hf. apply not_elem_of_cons in Hf as [Hne Hf].
      rewrite (Hframe f Hf). apply lookup_insert_ne. congruence.
    + destruct (IH job log1) as [job' [log' [Hrun Hframe]]].
      exists job', log'. split; [assumption |].
      intros f Hf. apply not_elem_of_cons in Hf as [Hne Hf]. apply Hframe, Hf.
Qed.

Lemma scrape_job_returns (soup : Soup) (log : list Request) :
  exists o log', scrape_job sc soup log = (Return o, log').
Proof.
  unfold scrape_job.
  destruct (set_all_returns (job_set_fields sc) soup
              (get_all sc (job_get_fields sc) soup ∅) log) as [job [log' [Hrun _]]].
  unfold mbind, IO_bind. rewrite Hrun. simpl. eauto.
Qed.

(** A record is produced only with an extracted value for every required
    field, and a field read from the listing holds what [get] returned. *)
Lemma scrape_job_complete (soup : Soup) (log log' : list Request) (job : Job) :
  scrape_job sc soup log = (Return (Some job), log') ->
  forall f, f ∈ min_required_job_fields sc ->
    exists v, job !! f = Some v /\ v <> VNone
              /\ (f ∉ job_set_fields sc ->
                  f ∈ job_get_fields sc /\ get sc f soup = Return v).
Proof.
  unfold scrape_job.
  destruct (set_all_returns (job_set_fields sc) soup
              (get_all sc (job_get_fields sc) soup ∅) log)
    as [jobF [logF [Hrun Hframe]]].
  unfold mbind, IO_bind. rewrite Hrun. simpl.
  destruct (accepted sc jobF) eqn:Hacc; [| discriminate].
  intros [= <- <-] f Hf.
  destruct (proj1 (accepted_spec jobF) Hacc f Hf) as [v [Hv Hpresent]].
  exists v. split; [assumption |]. split; [assumption |]. intros Hnset.
  rewrite (Hframe f Hnset), get_all_empty_lookup in Hv.
  destruct (decide (f ∈ job_get_fields sc)); [| discriminate].
  split; [assumption |]. apply extractFromListing_Some in Hv. tauto.
Qed.

(** A required field that the listing fails to give drops the record. *)
Lemma scrape_job_drops (soup : Soup) (log : list Request) (f : JobField) :
  f ∈ min_required_job_fields sc ->
  f ∉ job_set_fields sc ->
  raises (get sc f soup) \/ get sc f soup = Return VNone ->
  (scrape_job sc soup log).1 = Return None.
Proof.
  intros Hreq Hnset Hfail. unfold scrape_job.
  destruct (set_all_returns (job_set_fields sc) soup
              (get_all sc (job_get_fields sc) soup ∅) log)
    as [jobF [logF [Hrun Hframe]]].
  unfold mbind, IO_bind. rewrite Hrun. simpl.
  destruct (accepted sc jobF) eqn:Hacc; [| reflexivity].
  destruct (proj1 (accepted_spec jobF) Hacc f Hreq) as [v [Hv _]].
  rewrite (Hframe f Hnset), get_all_empty_lookup in Hv.
  apply extractFromListing_None in Hfail. rewrite Hfail in Hv.
  destruct (decide _); discriminate.
Qed.

End Validation.
Section RequiredFields.
Context `{DocumentParser} `{Session} `{Tools}.

Import BaseScraper.

Lemma monster_set_writes_its_field : set_writes_its_field Monster.scraper.
Proof.
  intros f job soup log job' log' Hset. simpl in Hset.
  destruct f; simpl in Hset; unfold lift in Hset; try discriminate.
  - destruct (job_url job) as [address |]; simpl in Hset; [| discriminate].
    destruct (index0 (Re.ID_REGEX_findall address)) as [key_id |];
      simpl in Hset; [| discriminate].
    injection Hset as <- <-. eauto.
  - unfold mbind, IO_bind, lift, send_get in Hset.
    destruct (job_url job) as [address |]; [| discriminate].
    destruct (session_get address) as [response |]; [| discriminate].
    destruct (find _ _) as [el |]; simpl in Hset; [| discriminate].
    injection Hset as <- <-. eauto.
Qed.

Lemma glassdoor_set_writes_its_field (config : SearchConfig) :
  set_writes_its_field (GlassDoor.scraper config).
Proof.
  intros f job soup log job' log' Hset. simpl in Hset.
  destruct f; simpl in Hset; unfold lift in Hset; try discriminate.
  unfold mbind, IO_bind, lift, send_get in Hset.
  destruct (job_url job) as [address |]; [| discriminate].
  destruct (session_get address) as [response |]; [| discriminate].
  destruct (find _ _) as [el |]; simpl in Hset; [| discriminate].
  injection Hset as <- <-. eauto.
Qed.

(** With every required listing field extracted, the record is accepted
    as soon as no required field is left to the detail phase. *)
Lemma scrape_job_accepts (sc : Scraper) (soup : Soup) (log : list Request) :
  set_writes_its_field sc ->
  (forall f, f ∈ min_required_job_fields sc -> f ∉ job_set_fields sc ->
             f ∈ job_get_fields sc
             /\ exists v, get sc f soup = Return v /\ v <> VNone) ->
  (forall f, f ∈ min_required_job_fields sc -> f ∉ job_set_fields sc) ->
  exists job log',
    scrape_job sc soup log = (Return (Some job), log')
    /\ forall f, f ∉ job_set_fields sc ->
         job !! f = get_all sc (job_get_fields sc) soup ∅ !! f.
Proof.
  intros Hset Hget Hnoset. unfold scrape_job.
  destruct (set_all_returns sc Hset (job_set_fields sc) soup
              (get_all sc (job_get_fields sc) soup ∅) log)
    as [jobF [logF [Hrun Hframe]]].
  unfold mbind, IO_bind. rewrite Hrun. simpl.
  assert (accepted sc jobF = true) as ->.
  { apply accepted_spec. intros f Hf.
    destruct (Hget f Hf (Hnoset f Hf)) as [Hin [v [Hv Hpresent]]].
    exists v. split; [| assumption].
    rewrite (Hframe f (Hnoset f Hf)), get_all_empty_lookup.
    destruct (decide (f ∈ job_get_fields sc)); [| contradiction].
    apply extractFromListing_Some. split; assumption. }
  exists jobF, logF. split; [reflexivity | exact Hframe].
Qed.

Lemma set_all_cons (sc : Scraper) (f : JobField) (fields : list JobField)
    (soup : Soup) (job : Job) (log : list Request) :
  set_all sc (f :: fields) soup job log
  = match set sc f job soup log with
    | (Return job', log') => set_all sc fields soup job' log'
    | (Raise _, log') => set_all sc fields soup job log'
    end.
Proof. reflexivity. Qed.

Lemma scrape_job_of_set_all (sc : Scraper) (soup : Soup) (log logF : list Request)
    (jobF : Job) :
  set_all sc (job_set_fields sc) soup
          (get_all sc (job_get_fields sc) soup ∅) log = (Return jobF, logF) ->
  scrape_job sc soup log
  = (Return (if accepted sc jobF then Some jobF else None), logF).
Proof.
  intros Hrun. unfold scrape_job, mbind, IO_bind. rewrite Hrun. reflexivity.
Qed.

(** Monster: the key is cut out of the address of the listing. *)
Lemma monster_scrape_job_key (soup : Soup) (log : list Request) (u : string) :
  get Monster.scraper URL soup = Return (VStr u) ->
  exists jobF logF,
    scrape_job Monster.scraper soup log
      = (Return (if accepted Monster.scraper jobF then Some jobF else None), logF)
    /\ jobF !! KEY_ID = VStr <$> head (Re.ID_REGEX_findall u)
    /\ forall f, f <> KEY_ID -> f <> DESCRIPTION ->
         jobF !! f = get_all Monster.scraper Monster.job_get_fields soup ∅ !! f.
Proof.
  intros Hurl.
  set (job0 := get_all Monster.scraper (job_get_fields Monster.scraper) soup ∅).
  assert (job0 !! URL = Some (VStr u)) as Hjob0.
  { unfold job0. rewrite get_all_empty_lookup.
    destruct (decide _) as [_ | Hn].
    - apply extractFromListing_Some. split; [exact Hurl | discriminate].
    - exfalso. apply Hn. simpl. unfold Monster.job_get_fields. repeat constructor. }
  assert (job0 !! KEY_ID = None) as Hkey0.
  { unfold job0. rewrite get_all_empty_lookup.
    destruct (decide _) as [Hin | _]; [| reflexivity].
    simpl in Hin. unfold Monster.job_get_fields in Hin.
    elem_cases Hin; discriminate. }
  assert (set Monster.scraper KEY_ID job0 soup log
          = (match Re.ID_REGEX_findall u with
             | key_id :: _ => Return (<[KEY_ID := VStr key_id]> job0)
             | [] => Raise IndexError
             end, log)) as Hkey.
  { simpl. unfold lift, job_url. rewrite Hjob0. simpl.
    destruct (Re.ID_REGEX_findall u); reflexivity. }
  assert (exists job1,
            set_all Monster.scraper (job_set_fields Monster.scraper) soup job0 log
            = set_all Monster.scraper [DESCRIPTION] soup job1 log
            /\ job1 !! KEY_ID = VStr <$> head (Re.ID_REGEX_findall u)
            /\ forall f, f <> KEY_ID -> job1 !! f = job0 !! f) as [job1 [Hstep [Hk1 Hf1]]].
  { change (job_set_fields Monster.scraper) with [KEY_ID; DESCRIPTION].
    rewrite set_all_cons, Hkey.
    destruct (Re.ID_REGEX_findall u) as [| key_id keys].
    - exists job0. auto.
    - exists (<[KEY_ID := VStr key_id]> job0). split; [reflexivity |]. split.
      + apply lookup_insert_eq.
      + intros f Hf. apply lookup_insert_ne. congruence. }
  destruct (set_all_returns Monster.scraper monster_set_writes_its_field
              [DESCRIPTION] soup job1 log) as [jobF [logF [Hrun Hframe]]].
  exists jobF, logF. split; [| split].
  - apply scrape_job_of_set_all. fold job0. rewrite Hstep. exact Hrun.
  - rewrite Hframe; [assumption |]. intros Hin. elem_cases Hin; discriminate.
  - intros f Hk Hd. rewrite Hframe; [apply Hf1, Hk |].
    intros Hin. elem_cases Hin; contradiction.
Qed.

Lemma monster_get_url_is_str (soup : Soup) :
  returns (get Monster.scraper URL soup) ->
  exists u, get Monster.scraper URL soup = Return (VStr u).
Proof.
  simpl. destruct (find soup _); simpl; [eauto | contradiction].
Qed.

Lemma get_all_raised (sc : Scraper) (soup : Soup) (f : JobField) :
  raises (get sc f soup) -> get_all sc (job_get_fields sc) soup ∅ !! f = None.
Proof.
  intros Hraise. rewrite get_all_empty_lookup.
  destruct (decide _); [| reflexivity].
  apply extractFromListing_None. left. exact Hraise.
Qed.

Lemma get_all_extracted (sc : Scraper) (soup : Soup) (f : JobField) (v : Value) :
  f ∈ job_get_fields sc -> get sc f soup = Return v -> v <> VNone ->
  get_all sc (job_get_fields sc) soup ∅ !! f = Some v.
Proof.
  intros Hin Hv Hpresent. rewrite get_all_empty_lookup.
  destruct (decide _); [| contradiction].
  apply extractFromListing_Some. split; assumption.
Qed.

(** C1. For every scraper (Monster and GlassDoor) and every listing
    fragment, a JobRecord is produced from the fragment only if every
    required field (TITLE, COMPANY, LOCATION, KEY_ID, URL) was
    successfully extracted: the record holds a value other than [None]
    for it, the one that [get] returned when the field is read from the
    listing, and for Monster's KEY_ID the first key that ID_REGEX finds in
    the URL.  A fragment for which the extraction of a required field
    fails ([get] raises or returns [None]; no key in Monster's URL) yields
    no JobRecord.  A fragment whose required fields all extract yields one
    JobRecord, with POST_DATE absent when its extraction fails. *)
Theorem required_fields_gate (config : SearchConfig) (sc : Scraper)
    (soup : Soup) (log : list Request) :
  sc = Monster.scraper \/ sc = GlassDoor.scraper config ->
  (exists o log', scrape_job sc soup log = (Return o, log'))
  /\ (forall job log',
        scrape_job sc soup log = (Return (Some job), log') ->
        forall f, f ∈ min_required_job_fields sc ->
          exists v, job !! f = Some v /\ v <> VNone
                    /\ (f ∈ job_get_fields sc -> get sc f soup = Return v))
  /\ (forall job log',
        scrape_job Monster.scraper soup log = (Return (Some job), log') ->
        exists u key_id,
          get Monster.scraper URL soup = Return (VStr u)
          /\ head (Re.ID_REGEX_findall u) = Some key_id
          /\ job !! KEY_ID = Some (VStr key_id))
  /\ (forall f, f ∈ min_required_job_fields sc -> f ∈ job_get_fields sc ->
        raises (get sc f soup) \/ get sc f soup = Return VNone ->
        (scrape_job sc soup log).1 = Return None)
  /\ (forall u, get Monster.scraper URL soup = Return (VStr u) ->
        Re.ID_REGEX_findall u = [] ->
        (scrape_job Monster.scraper soup log).1 = Return None)
  /\ ((forall f, f ∈ min_required_job_fields sc -> f ∈ job_get_fields sc ->
         exists v, get sc f soup = Return v /\ v <> VNone) ->
      (sc = Monster.scraper ->
       forall u, get sc URL soup = Return (VStr u) -> Re.ID_REGEX_findall u <> []) ->
      exists job log',
        scrape_job sc soup log = (Return (Some job), log')
        /\ (raises (get sc POST_DATE soup) -> job !! POST_DATE = None)).
Proof.
  intros Hsc.
  assert (set_writes_its_field sc) as Hset.
  { destruct Hsc as [-> | ->];
      [apply monster_set_writes_its_field | apply glassdoor_set_writes_its_field]. }
  assert (job_get_fields sc ## job_set_fields sc) as Hdisj.
  { destruct Hsc as [-> | ->];
      [apply monster_fields_invariant | apply glassdoor_fields_invariant]. }
  split; [apply scrape_job_returns, Hset |].
  split; [| split; [| split; [| split]]].
  - intros job log' Hrun f Hf.
    destruct (scrape_job_complete sc Hset soup log log' job Hrun f Hf)
      as [v [Hv [Hpresent Hval]]].
    exists v. split; [assumption |]. split; [assumption |].
    intros Hget. apply Hval. intros Hin. exact (Hdisj f Hget Hin).
  - intros job log' Hrun.
    destruct (scrape_job_complete Monster.scraper monster_set_writes_its_field
                soup log log' job Hrun URL) as [v [_ [_ Hval]]].
    { simpl. unfold Monster.min_required_job_fields. repeat constructor. }
    destruct Hval as [_ Hurl].
    { intros Hin. simpl in Hin. unfold Monster.job_set_fields in Hin.
      elem_cases Hin; discriminate. }
    destruct (monster_get_url_is_str soup) as [u Hu]; [rewrite Hurl; exact I |].
    destruct (monster_scrape_job_key soup log u Hu) as [jobF [logF [Hrun' [Hkey _]]]].
    rewrite Hrun in Hrun'.
    destruct (accepted Monster.scraper jobF) eqn:Hacc; [| discriminate].
    injection Hrun' as -> _.
    destruct (proj1 (accepted_spec Monster.scraper jobF) Hacc KEY_ID) as [w [Hw _]].
    { simpl. unfold Monster.min_required_job_fields. repeat constructor. }
    rewrite Hw in Hkey.
    destruct (head (Re.ID_REGEX_findall u)) as [key_id |] eqn:Hhead; [| discriminate].
    exists u, key_id. simpl in Hkey. injection Hkey as ->. auto.
  - intros f Hreq Hget Hfail.
    apply (scrape_job_drops sc Hset soup log f Hreq); [| assumption].
    intros Hin. exact (Hdisj f Hget Hin).
  - intros u Hurl Hnone.
    destruct (monster_scrape_job_key soup log u Hurl) as [jobF [logF [Hrun [Hkey _]]]].
    rewrite Hrun. simpl. rewrite Hnone in Hkey. simpl in Hkey.
    destruct (accepted Monster.scraper jobF) eqn:Hacc; [| reflexivity].
    destruct (proj1 (accepted_spec Monster.scraper jobF) Hacc KEY_ID) as [v [Hv _]].
    { simpl. unfold Monster.min_required_job_fields. repeat constructor. }
    congruence.
  - intros Hgets Hkeys.
    destruct Hsc as [-> | ->].
    + destruct (monster_get_url_is_str soup) as [u Hurl].
      { destruct (Hgets URL) as [v [-> _]]; simpl;
          [unfold Monster.min_required_job_fields | unfold Monster.job_get_fields
           | exact I]; repeat constructor. }
      destruct (monster_scrape_job_key soup log u Hurl)
        as [jobF [logF [Hrun [Hkey Hframe]]]].
      exists jobF, logF.
      assert (accepted Monster.scraper jobF = true) as Hacc.
      { apply accepted_spec. intros f Hf.
        destruct (decide (f = KEY_ID)) as [-> | Hne].
        - rewrite Hkey.
          destruct (Re.ID_REGEX_findall u) as [| key_id keys] eqn:Hfind; simpl.
          + exfalso. exact (Hkeys eq_refl u Hurl Hfind).
          + exists (VStr key_id). split; [reflexivity | discriminate].
        - assert (f ∈ job_get_fields Monster.scraper) as Hin.
          { simpl in Hf |- *. unfold Monster.min_required_job_fields in Hf.
            unfold Monster.job_get_fields.
            elem_cases Hf; try contradiction; repeat constructor. }
          destruct (Hgets f Hf Hin) as [v [Hv Hpresent]].
          exists v. split; [| assumption].
          rewrite Hframe; [| assumption |].
          + apply (get_all_extracted Monster.scraper); assumption.
          + intros ->. simpl in Hf. unfold Monster.min_required_job_fields in Hf.
            elem_cases Hf; discriminate. }
      rewrite Hrun, Hacc. split; [reflexivity |]. intros Hdate.
      rewrite Hframe by discriminate.
      apply (get_all_raised Monster.scraper), Hdate.
    + destruct (scrape_job_accepts (GlassDoor.scraper config) soup log Hset)
        as [job [log' [Hrun Hframe]]].
      * intros f Hf Hnset.
        assert (f ∈ job_get_fields (GlassDoor.scraper config)) as Hin.
        { simpl in Hf |- *; unfold GlassDoor.min_required_job_fields in Hf;
            unfold GlassDoor.job_get_fields;
            elem_cases Hf; repeat constructor. }
        split; [exact Hin | apply Hgets; assumption].
      * intros f Hf Hin. simpl in Hf, Hin.
        unfold GlassDoor.min_required_job_fields in Hf.
        unfold GlassDoor.job_set_fields in Hin.
        elem_cases Hin. elem_cases Hf; discriminate.
      * exists job, log'. split; [assumption |]. intros Hdate.
        rewrite Hframe.
        -- apply (get_all_raised (GlassDoor.scraper config)), Hdate.
        -- intros Hin. simpl in Hin. unfold GlassDoor.job_set_fields in Hin.
           elem_cases Hin; discriminate.
Qed.

End RequiredFields.

(** ** Monster: what the call does *)

Section MonsterListing.
Context `{DocumentParser} `{Session}.
Variable self : Monster.Class.
Variable config : SearchConfig.
Variable search_url : string.
Hypothesis Hurl : Monster._get_search_url self config "get" = Return search_url.

Import Monster.

Lemma monster_listings_unfold (log : list Request) :
  get_job_soups_from_search_result_listings self config log
  = match _get_num_search_result_pages search_url log with
    | (Return pages, log1) => _get_job_soups_from_search_page search_url pages log1
    | (Raise e, log1) => (Raise e, log1)
    end.
Proof.
  unfold get_job_soups_from_search_result_listings, mbind, IO_bind, lift.
  rewrite Hurl. reflexivity.
Qed.

Lemma monster_page_request (pages : Z) (log1 : list Request) :
  _get_job_soups_from_search_page search_url pages log1
  = (match session_get (search_url +:+ "&start=" +:+ str_of_int pages) with
     | Some response =>
         Return (find_all (BeautifulSoup (response_text response))
                          (TagAttr "div" "class" "flex-row"))
     | None => Raise RequestException
     end,
     log1 ++ [GET (search_url +:+ "&start=" +:+ str_of_int pages)]).
Proof.
  unfold _get_job_soups_from_search_page, mbind, IO_bind, send_get.
  destruct (session_get _); reflexivity.
Qed.

Lemma monster_count_request (log log1 : list Request) (r : result Z) :
  _get_num_search_result_pages search_url log = (r, log1) ->
  log1 = log ++ [GET search_url].
Proof.
  unfold _get_num_search_result_pages, mbind, IO_bind, send_get, lift.
  destruct (session_get search_url); [| intros [= _ <-]; reflexivity].
  destruct (deref _); intros [= _ <-]; reflexivity.
Qed.

Lemma monster_count_failure_propagates (log log1 : list Request) (e : Exception) :
  _get_num_search_result_pages search_url log = (Raise e, log1) ->
  get_job_soups_from_search_result_listings self config log = (Raise e, log1).
Proof. intros Hplan. rewrite monster_listings_unfold, Hplan. reflexivity. Qed.


End MonsterListing.

Lemma fixture_monster_search_url :
  Monster._get_search_url Monster.MonsterScraperCANEng Fixture.config "get"
  = Return Fixture.monster_search_url.
Proof. vm_compute. reflexivity. Qed.

(** C6 (amended). For a count-indicator text whose first run of digits
    has at most 4300 digits (a longer run makes [int] raise ValueError)
    and whose total is below 2^1023 (beyond the range of a float the
    division raises OverflowError), the page-count computation of either
    planner fails if and only if the text contains no run of digits, and
    then with IndexError; and a failure of the computation is the outcome
    of the whole call, raised to the caller. *)
Theorem page_count_fails_without_digits `{DocumentParser} `{Session}
    (t : string) (max_results_per_page : Z)
    (self : Monster.Class) (config : SearchConfig) (monster_url : string)
    (glassdoor_url : string) (data : FormData) (request_html : Response) :
  0 < max_results_per_page ->
  too_long (first_run t) = false ->
  too_long (first_run (replace "," "" t)) = false ->
  (forall n, Monster.total_of_text t = Return n -> n < 2 ^ 1023) ->
  (forall n, GlassDoor.total_of_text t = Return n -> n < 2 ^ 1023) ->
  Monster._get_search_url self config "get" = Return monster_url ->
  session_post glassdoor_url data = Some request_html ->
  (raises (Monster.pages_of_text t) <-> Spec.contains_digit t = false)
  /\ (raises (GlassDoor.pages_of_text max_results_per_page t)
      <-> Spec.contains_digit t = false)
  /\ (Spec.contains_digit t = false ->
      Monster.pages_of_text t = Raise IndexError
      /\ GlassDoor.pages_of_text max_results_per_page t = Raise IndexError)
  /\ (forall t', too_long (first_run t') = true ->
        Monster.pages_of_text t' = Raise ValueError)
  /\ (forall t', too_long (first_run (replace "," "" t')) = true ->
        GlassDoor.pages_of_text max_results_per_page t' = Raise ValueError)
  /\ (forall log log1 e,
        Monster._get_num_search_result_pages monster_url log = (Raise e, log1) ->
        Monster.get_job_soups_from_search_result_listings self config log
        = (Raise e, log1))
  /\ (forall e o,
        GlassDoor._get_num_search_result_pages max_results_per_page
          (BeautifulSoup (response_text request_html)) = Raise e ->
        GlassDoor.get_job_soups_from_search_result_listings
          config max_results_per_page glassdoor_url data o
        <-> o = GlassDoor.Raised e).
Proof.
  intros Hs Hrun Hrun' Hmonster Hglassdoor Hurl Hpost.
  split; [| split; [| split; [| split; [| split; [| split]]]]].
  - apply pages_raise_without_digits;
      [unfold Monster.MAX_RESULTS_PER_MONSTER_PAGE; lia | exact Hrun | exact Hmonster].
  - rewrite <- contains_digit_replace_comma.
    apply pages_raise_without_digits; [exact Hs | exact Hrun' | exact Hglassdoor].
  - intros Ht. split.
    + apply pages_raise_IndexError, Ht.
    + rewrite <- contains_digit_replace_comma in Ht.
      apply pages_raise_IndexError, Ht.
  - intros t'. apply pages_raise_ValueError.
  - intros t'. apply pages_raise_ValueError.
  - intros log log1 e. apply monster_count_failure_propagates, Hurl.
  - intros e o. apply count_failure_is_the_outcome, Hpost.
Qed.

Lemma page_count_fails_without_digits_witness :
  0 < 30
  /\ too_long (first_run "65 Jobs") = false
  /\ (raises (Monster.pages_of_text "65 Jobs")
      <-> Spec.contains_digit "65 Jobs" = false)
  /\ (raises (GlassDoor.pages_of_text 30 "65 Jobs")
      <-> Spec.contains_digit "65 Jobs" = false).
Proof.
  split; [lia |]. split; [reflexivity |].
  assert (forall n, Monster.total_of_text "65 Jobs" = Return n -> n < 2 ^ 1023)
    as Hmonster.
  { intros n Hn. vm_compute in Hn. injection Hn as <-. reflexivity. }
  assert (forall n, GlassDoor.total_of_text "65 Jobs" = Return n -> n < 2 ^ 1023)
    as Hglassdoor.
  { intros n Hn. vm_compute in Hn. injection Hn as <-. reflexivity. }
  destruct (@page_count_fails_without_digits Fixture.bs4 Fixture.requests_session
              "65 Jobs" 30 Monster.MonsterScraperCANEng Fixture.config
              Fixture.monster_search_url Fixture.glassdoor_search_url
              Fixture.glassdoor_data
              {| url := Fixture.glassdoor_search_url;
                 response_text := "glassdoor: 65 jobs" |}
              ltac:(lia) eq_refl eq_refl Hmonster Hglassdoor
              fixture_monster_search_url eq_refl)
    as [Hm [Hg _]].
  split; assumption.
Defined.

Lemma long_count_has_digits : Spec.contains_digit Fixture.long_count = true.
Proof. vm_compute. reflexivity. Qed.

Lemma long_count_overflows :
  Monster.pages_of_text Fixture.long_count = Raise OverflowError.
Proof. vm_compute. reflexivity. Qed.

(** C6 as stated fails for a count of 400 digits: the text has a run of
    digits, which [int] converts, and the computation raises
    OverflowError. *)
Lemma page_count_overflows_on_long_counts :
  ~ (forall t, raises (Monster.pages_of_text t) <-> Spec.contains_digit t = false).
Proof.
  intros Hclaim. destruct (Hclaim Fixture.long_count) as [Hfail _].
  rewrite long_count_has_digits, long_count_overflows in Hfail.
  specialize (Hfail I). discriminate.
Qed.

(** ** The page addresses of GlassDoor *)

Lemma match_IP_head (c : ascii) (r : string) :
  c <> "_"%char -> Re.match_IP (String c r) = None.
Proof.
  intros Hc.
  destruct c as [[] [] [] [] [] [] [] []]; try reflexivity.
  contradiction Hc. reflexivity.
Qed.

Lemma sub_IP_without_match (repl s : string) :
  Re.search_IP s = false -> Re.sub_IP repl s = s.
Proof.
  unfold Re.sub_IP. induction s as [| c s IH]; [reflexivity |].
  cbn [Re.search_IP Re.sub_IP_from]. intros Hs.
  apply orb_false_elim in Hs as [Hhead Hs].
  destruct (Re.match_IP (String c s)) as [n |].
  - apply bool_decide_eq_false in Hhead. contradiction Hhead. eauto.
  - rewrite (IH Hs). reflexivity.
Qed.

Lemma search_IP_after_plain_prefix (x y : string) :
  Re.contains "_" x = false -> Re.search_IP (x +:+ y) = Re.search_IP y.
Proof.
  induction x as [| c x IH]; [reflexivity |].
  cbn [Re.contains]. intros Hx. apply orb_false_elim in Hx as [Hc Hx].
  change (String c x +:+ y) with (String c (x +:+ y)).
  cbn [Re.search_IP]. rewrite match_IP_head, (IH Hx).
  - reflexivity.
  - intros ->. discriminate.
Qed.

Lemma mapM_result_cons {A B} (f : A -> result B) (x : A) (l : list A) (y : B)
    (k : list B) :
  f x = Return y -> mapM f l = Return k -> mapM f (x :: l) = Return (y :: k).
Proof.
  intros Hx Hl. apply mapM_result_Forall2. constructor; [assumption |].
  apply mapM_result_Forall2. assumption.
Qed.

Section GlassDoorPages.
Context `{DocumentParser} `{Session}.
Variable config : SearchConfig.
Variable request_html : Response.

Import GlassDoor.

#[local] Abbreviation soup_base := (BeautifulSoup (response_text request_html)).



Variable li a : Soup.
Hypothesis Hli : find soup_base (TagAttrSet "li" "class" "next") = Some li.
Hypothesis Ha : find li (Tag "a") = Some a.
Hypothesis Hhref : Re.search_IP (str_of_optional (tag_get a "href")) = false.
Hypothesis Hdomain : Re.contains "_" (domain config) = false.

#[local] Abbreviation next_address :=
  ("https://www.glassdoor." +:+ domain config
   +:+ str_of_optional (tag_get a "href")).

Lemma page_url_without_page_number (page : Z) :
  page_url config soup_base page = Return next_address.
Proof.
  unfold page_url. rewrite Hli. simpl. rewrite Ha. simpl.
  rewrite sub_IP_without_match; [reflexivity |].
  rewrite (search_IP_after_plain_prefix "https://www.glassdoor.") by reflexivity.
  rewrite search_IP_after_plain_prefix by exact Hdomain.
  exact Hhref.
Qed.

Lemma submitted_without_page_number (n_pages : Z) :
  1 <= n_pages ->
  submitted config request_html soup_base n_pages
  = Return (url request_html :: replicate (Z.to_nat (n_pages - 1)) next_address).
Proof.
  intros Hn. unfold submitted. rewrite seqZ_cons by lia.
  apply mapM_result_cons; [reflexivity |].
  apply mapM_result_Forall2, Forall2_replicate_r.
  - rewrite length_seqZ. f_equal; lia.
  - apply Forall_seqZ. intros page Hpage. unfold flip, task_url.
    destruct (Z.eqb_spec page 1); [lia |].
    apply page_url_without_page_number.
Qed.

End GlassDoorPages.

Lemma bind_replicate_concat {A B} (g : A -> list B) (n : nat) (x : A) :
  replicate n x ≫= g = concat (replicate n (g x)).
Proof.
  induction n as [| n IH]; [reflexivity |].
  change (replicate (S n) x) with (x :: replicate n x).
  rewrite bind_cons, IH. reflexivity.
Qed.

Lemma required_fields_gate_witness :
  (@Monster.scraper Fixture.bs4 Fixture.requests_session Fixture.tools
   = @Monster.scraper Fixture.bs4 Fixture.requests_session Fixture.tools
   \/ @Monster.scraper Fixture.bs4 Fixture.requests_session Fixture.tools
      = @GlassDoor.scraper Fixture.bs4 Fixture.requests_session Fixture.tools
          Fixture.config)
  /\ (exists job log',
        @BaseScraper.scrape_job Fixture.bs4
          (@Monster.scraper Fixture.bs4 Fixture.requests_session Fixture.tools)
          Fixture.monster_listing_1 []
        = (Return (Some job), log')
        /\ job !! POST_DATE = None)
  /\ (@BaseScraper.scrape_job Fixture.bs4
        (@Monster.scraper Fixture.bs4 Fixture.requests_session Fixture.tools)
        Fixture.monster_listing_2 []).1
     = Return None
  /\ (@BaseScraper.scrape_job Fixture.bs4
        (@GlassDoor.scraper Fixture.bs4 Fixture.requests_session Fixture.tools
           Fixture.config)
        Edge.glassdoor_listing_without_title []).1
     = Return None.
Proof.
  split; [left; reflexivity |]. split; [| split].
  - destruct (@required_fields_gate Fixture.bs4 Fixture.requests_session Fixture.tools
                Fixture.config
                (@Monster.scraper Fixture.bs4 Fixture.requests_session Fixture.tools)
                Fixture.monster_listing_1 [] (or_introl eq_refl))
      as [_ [_ [_ [_ [_ Hdegraded]]]]].
    destruct Hdegraded as [job [log' [Hrun Hdate]]].
    + intros f Hreq Hget. simpl in Hget. unfold Monster.job_get_fields in Hget.
      elem_cases Hget; try (eexists; split; [reflexivity | discriminate]).
      simpl in Hreq. unfold Monster.min_required_job_fields in Hreq.
      elem_cases Hreq; discriminate.
    + intros _ u Hu Hnone. vm_compute in Hu. injection Hu as <-.
      vm_compute in Hnone. discriminate.
    + exists job, log'. split; [exact Hrun | apply Hdate; exact I].
  - destruct (@required_fields_gate Fixture.bs4 Fixture.requests_session Fixture.tools
                Fixture.config
                (@Monster.scraper Fixture.bs4 Fixture.requests_session Fixture.tools)
                Fixture.monster_listing_2 [] (or_introl eq_refl))
      as [_ [_ [_ [Hdrop _]]]].
    apply (Hdrop COMPANY).
    + simpl. unfold Monster.min_required_job_fields. repeat constructor.
    + simpl. unfold Monster.job_get_fields. repeat constructor.
    + left. exact I.
  - destruct (@required_fields_gate Fixture.bs4 Fixture.requests_session Fixture.tools
                Fixture.config
                (@GlassDoor.scraper Fixture.bs4 Fixture.requests_session Fixture.tools
                   Fixture.config)
                Edge.glassdoor_listing_without_title [] (or_intror eq_refl))
      as [_ [_ [_ [Hdrop _]]]].
    apply (Hdrop TITLE).
    + simpl. unfold GlassDoor.min_required_job_fields. repeat constructor.
    + simpl. unfold GlassDoor.job_get_fields. repeat constructor.
    + right. reflexivity.
Defined.

(** ** The aggregate of the planned pages *)


Lemma fixture_glassdoor_addresses :
  @GlassDoor.submitted Fixture.bs4 Fixture.config
    {| url := Fixture.glassdoor_search_url; response_text := "glassdoor: 65 jobs" |}
    (@BeautifulSoup Fixture.bs4 "glassdoor: 65 jobs") 3
  = Return [Fixture.glassdoor_search_url;
            "https://www.glassdoor.ca/Job/python-jobs-SRCH_KO0,6_IP2.htm";
            "https://www.glassdoor.ca/Job/python-jobs-SRCH_KO0,6_IP3.htm"].
Proof. vm_compute. reflexivity. Qed.











(** C9 (amended). When the href of the next link of the first results
    page contains no match of [_IP<digits>.] and the configured domain has
    no underscore (the substitution runs over domain and href together, so
    that a match may begin in the domain), the page address built by
    GlassDoor is the same for every page index: the substitution replaces
    nothing.  Every page beyond the first is then requested at that one
    address, and its listings are in the list returned once for each of
    these pages. *)
Theorem glassdoor_same_address_beyond_first_page `{DocumentParser} `{Session}
    (config : SearchConfig) (max_results_per_page : Z) (search_url : string)
    (data : FormData) (request_html : Response) (n_pages : Z) (li a : Soup) :
  Re.contains "_" (domain config) = false ->
  session_post search_url data = Some request_html ->
  GlassDoor._get_num_search_result_pages max_results_per_page
    (BeautifulSoup (response_text request_html)) = Return n_pages ->
  find (BeautifulSoup (response_text request_html)) (TagAttrSet "li" "class" "next")
    = Some li ->
  find li (Tag "a") = Some a ->
  Re.search_IP (str_of_optional (tag_get a "href")) = false ->
  1 <= n_pages ->
  let next := "https://www.glassdoor." +:+ domain config
              +:+ str_of_optional (tag_get a "href") in
  (forall page,
     GlassDoor.page_url config (BeautifulSoup (response_text request_html)) page
     = Return next)
  /\ GlassDoor.submitted config request_html
       (BeautifulSoup (response_text request_html)) n_pages
     = Return (url request_html :: replicate (Z.to_nat (n_pages - 1)) next)
  /\ (exists soups reqs,
        GlassDoor.get_job_soups_from_search_result_listings
          config max_results_per_page search_url data
          (GlassDoor.Returned soups reqs))
  /\ (forall o,
        GlassDoor.get_job_soups_from_search_result_listings
          config max_results_per_page search_url data o ->
        exists soups reqs,
          o = GlassDoor.Returned soups reqs
          /\ reqs ≡ₚ POST search_url data :: GET (url request_html)
                     :: replicate (Z.to_nat (n_pages - 1)) (GET next)
          /\ soups ≡ₚ GlassDoor.page_listings (url request_html)
                      ++ concat (replicate (Z.to_nat (n_pages - 1))
                                           (GlassDoor.page_listings next))).
Proof.
  intros Hdomain Hpost Hcount Hli Ha Hhref Hn next.
  pose proof (submitted_without_page_number config request_html li a
                Hli Ha Hhref Hdomain n_pages Hn) as Hloop.
  fold next in Hloop.
  split; [| split; [| split]].
  - intros page.
    apply (page_url_without_page_number config request_html li a Hli Ha Hhref Hdomain).
  - exact Hloop.
  - eapply listings_return; eassumption.
  - intros o Ho.
    destruct (listings_returned config max_results_per_page search_url data
                request_html Hpost n_pages Hcount _ Hloop o Ho)
      as [soups [reqs [-> [Hreqs Hsoups]]]].
    exists soups, reqs. split; [reflexivity |].
    rewrite fmap_cons, fmap_replicate in Hreqs.
    rewrite bind_cons, bind_replicate_concat in Hsoups.
    split; assumption.
Qed.

Lemma glassdoor_same_address_beyond_first_page_witness :
  Re.search_IP "/Job/python-jobs.htm" = false
  /\ forall o,
       @GlassDoor.get_job_soups_from_search_result_listings
         Fixture.bs4 Fixture.requests_session Fixture.config 30
         Fixture.glassdoor_plain_url Fixture.glassdoor_data o ->
       exists soups reqs,
         o = GlassDoor.Returned soups reqs
         /\ soups ≡ₚ [Fixture.glassdoor_listing_1;
                      Fixture.glassdoor_listing_2; Fixture.glassdoor_listing_2].
Proof.
  split; [reflexivity |].
  destruct (@glassdoor_same_address_beyond_first_page
              Fixture.bs4 Fixture.requests_session Fixture.config 30
              Fixture.glassdoor_plain_url Fixture.glassdoor_data
              {| url := Fixture.glassdoor_plain_url;
                 response_text := "glassdoor: plain next link" |}
              3
              (Fixture.Node "" []
                 [(Tag "a", Fixture.Node "" [("href", "/Job/python-jobs.htm")] [] [])]
                 [])
              (Fixture.Node "" [("href", "/Job/python-jobs.htm")] [] [])
              eq_refl eq_refl eq_refl eq_refl eq_refl eq_refl ltac:(lia))
    as [_ [_ [_ Hall]]].
  intros o Ho. destruct (Hall o Ho) as [soups [reqs [-> [_ Hsoups]]]].
  exists soups, reqs. split; [reflexivity | exact Hsoups].
Defined.

(** C9 as stated fails when a match begins in the domain: with the
    domain [x_IP1] and the href [.htm], which holds no match, the address
    is [https://www.glassdoor.x_IP1.htm], and the pages 2 and 3 are
    addressed at [...x_IP2.htm] and [...x_IP3.htm]. *)
Lemma glassdoor_page_number_in_domain :
  ~ (forall (P : DocumentParser) (config : SearchConfig) (soup_base li a : Soup)
            (p q : Z),
       find soup_base (TagAttrSet "li" "class" "next") = Some li ->
       find li (Tag "a") = Some a ->
       Re.search_IP (str_of_optional (tag_get a "href")) = false ->
       2 <= p -> 2 <= q ->
       GlassDoor.page_url config soup_base p = GlassDoor.page_url config soup_base q).
Proof.
  intros Hclaim.
  specialize (Hclaim Fixture.bs4 Edge.numbered_domain_config Edge.page_with_bare_link
                _ _ 2 3 eq_refl eq_refl eq_refl ltac:(lia) ltac:(lia)).
  vm_compute in Hclaim. discriminate.
Qed.

(* ================================================================== *)
(** * Part III: further properties of the code                          *)
(* ================================================================== *)

(** ** Further properties: radius buckets *)

(** X1. A non-negative radius is rounded down to a bucket: the result of
    [_convert_radius] is not above the radius, and no bucket of the locale
    lies between the result and the radius. *)
Theorem convert_radius_rounds_down (self : Monster.Class) (r b : Z) :
  0 <= r ->
  Monster._convert_radius self r <= r
  /\ (In b (radius_buckets self) -> b <= r -> b <= Monster._convert_radius self r).
Proof.
  intros Hr. split.
  - destruct self; unfold Monster._convert_radius; split_comparisons; simpl; lia.
  - intros Hb Hle.
    destruct self; simpl in Hb;
      repeat (destruct Hb as [<- | Hb]; [
        unfold Monster._convert_radius; split_comparisons; simpl; lia |]);
      destruct Hb.
Qed.

Lemma convert_radius_rounds_down_witness :
  0 <= 47
  /\ Monster._convert_radius Monster.MonsterScraperUSAEng 47 <= 47
  /\ (In 40 (radius_buckets Monster.MonsterScraperUSAEng) -> 40 <= 47 ->
      40 <= Monster._convert_radius Monster.MonsterScraperUSAEng 47).
Proof.
  split; [lia |].
  apply (convert_radius_rounds_down Monster.MonsterScraperUSAEng 47 40). lia.
Defined.

Ltac split_on r :=
  repeat match goal with
         | |- context [r <? ?b] => destruct (Z.ltb_spec r b); try lia
         | |- context [?a <=? r] => destruct (Z.leb_spec a r); try lia
         end.

(** X2. The Canadian buckets are coarser than the American ones: for every
    radius the Canadian result is not above the American one, and rounding
    to the American buckets first does not change the Canadian result. *)
Theorem convert_radius_CAN_coarser_than_USA (r : Z) :
  Monster._convert_radius Monster.MonsterScraperCANEng r
  <= Monster._convert_radius Monster.MonsterScraperUSAEng r
  /\ Monster._convert_radius Monster.MonsterScraperCANEng
       (Monster._convert_radius Monster.MonsterScraperUSAEng r)
     = Monster._convert_radius Monster.MonsterScraperCANEng r.
Proof.
  split; unfold Monster._convert_radius; split_on r; simpl; lia.
Qed.

(** ** Further properties: the Monster search address *)

Lemma contains_app (c : ascii) (x y : string) :
  Re.contains c (x +:+ y) = Re.contains c x || Re.contains c y.
Proof.
  induction x as [| c' x IH]; [reflexivity |].
  change (String c' x +:+ y) with (String c' (x +:+ y)).
  cbn [Re.contains]. rewrite IH, orb_assoc. reflexivity.
Qed.

Lemma replace_removes (old : ascii) (new s : string) :
  Re.contains old new = false -> Re.contains old (replace old new s) = false.
Proof.
  intros Hnew. induction s as [| c s IH]; [reflexivity |].
  cbn [replace]. destruct (Ascii.eqb c old) eqn:Hc.
  - rewrite contains_app, Hnew, IH. reflexivity.
  - cbn [Re.contains]. rewrite Hc, IH. reflexivity.
Qed.

(** X3. The query built by [__init__] from the keywords holds no space:
    the keywords are joined with dashes and every space left becomes a
    dash. *)
Theorem monster_query_has_no_space (config : SearchConfig) :
  Re.contains " " (Monster.query config) = false.
Proof. unfold Monster.query. apply replace_removes. reflexivity. Qed.

Lemma bucket_text_has_no_space (self : Monster.Class) (r : Z) :
  Re.contains " " (str_of_int (Monster._convert_radius self r)) = false.
Proof.
  pose proof (convert_radius_in_buckets self r) as Hb.
  set (b := Monster._convert_radius self r) in *. clearbody b.
  destruct self; simpl in Hb;
    repeat (destruct Hb as [<- | Hb]; [reflexivity |]); destruct Hb.
Qed.

(** X4. [_get_search_url] returns an address for the method 'get' only:
    for 'post' it raises NotImplementedError and for any other method
    ValueError. *)
Theorem monster_search_url_methods (self : Monster.Class) (config : SearchConfig)
    (method : string) :
  (returns (Monster._get_search_url self config method) <-> method = "get")
  /\ (Monster._get_search_url self config method = Raise NotImplementedError
      <-> method = "post")
  /\ (Monster._get_search_url self config method = Raise ValueError
      <-> method <> "get" /\ method <> "post").
Proof.
  unfold Monster._get_search_url.
  destruct (String.eqb_spec method "get") as [-> | Hget].
  - simpl. split; [tauto |]. split; split; try discriminate.
    intros [Hne _]. contradiction.
  - destruct (String.eqb_spec method "post") as [-> | Hpost]; simpl.
    + split; [tauto |]. split; split; try discriminate; try reflexivity.
      intros [_ Hne]. contradiction.
    + split; [tauto |]. split; split; try discriminate; try reflexivity;
        try contradiction. intros _. split; assumption.
Qed.

(** X5. When neither the domain nor the province or state of the search
    holds a space, the address returned by [_get_search_url] holds none,
    whatever the keywords and the city are. *)
Theorem monster_search_url_has_no_space (self : Monster.Class) (config : SearchConfig) :
  Re.contains " " (domain config) = false ->
  Re.contains " " (province_or_state config) = false ->
  exists search_url,
    Monster._get_search_url self config "get" = Return search_url
    /\ Re.contains " " search_url = false.
Proof.
  intros Hdomain Hprovince. eexists. split; [reflexivity |].
  unfold Monster.query.
  rewrite !contains_app, Hdomain, Hprovince, bucket_text_has_no_space,
    !replace_removes by reflexivity.
  reflexivity.
Qed.

Lemma monster_search_url_has_no_space_witness :
  Re.contains " " "ca" = false
  /\ exists search_url,
       Monster._get_search_url Monster.MonsterScraperCANEng
         {| keywords := ["data scientist"; "python"]; domain := "ca";
            city := "north bay"; province_or_state := "ON"; radius := 25 |} "get"
       = Return search_url
       /\ Re.contains " " search_url = false.
Proof.
  split; [reflexivity |].
  apply (monster_search_url_has_no_space Monster.MonsterScraperCANEng
           {| keywords := ["data scientist"; "python"]; domain := "ca";
              city := "north bay"; province_or_state := "ON"; radius := 25 |});
    reflexivity.
Defined.

(** ** Further properties: the field dispatch of the scrapers *)

Section Dispatch.
Context `{DocumentParser} `{Session} `{Tools}.

(** X6. Monster's [get] raises NotImplementedError for every field that is
    not in [job_get_fields]; for a listed field other than POST_DATE the
    only failure is the AttributeError of a missing element; and a link
    without href does not fail: the URL is then the text 'None', in which
    ID_REGEX finds no key. *)
Theorem monster_get_failures (parameter : JobField) (soup el : Soup) (e : Exception) :
  (parameter ∉ Monster.job_get_fields ->
   Monster.get parameter soup = Raise NotImplementedError)
  /\ (parameter ∈ Monster.job_get_fields -> parameter <> POST_DATE ->
      Monster.get parameter soup = Raise e -> e = AttributeError)
  /\ (find soup (TagAttr "a" "data-bypass" "true") = Some el ->
      tag_get el "href" = None ->
      Monster.get URL soup = Return (VStr "None")
      /\ Re.ID_REGEX_findall "None" = []).
Proof.
  split; [| split].
  - intros Hnot. destruct parameter; try reflexivity;
      exfalso; apply Hnot; unfold Monster.job_get_fields; repeat constructor.
  - intros Hin Hdate. unfold Monster.job_get_fields in Hin.
    elem_cases Hin; try contradiction; simpl;
      destruct (find soup _); simpl; intros [=]; congruence.
  - intros Hel Hhref. simpl. rewrite Hel. simpl. rewrite Hhref.
    split; reflexivity.
Qed.

(** X7. GlassDoor's [get] never raises for TITLE, LOCATION and KEY_ID, which
    are read from attributes of the listing (a missing attribute gives
    None); it raises NotImplementedError for every field that is not in
    [job_get_fields]; and for COMPANY and URL the only failure is the
    AttributeError of a missing element. *)
Theorem glassdoor_get_failures (config : SearchConfig) (parameter : JobField)
    (soup : Soup) (e : Exception) :
  (parameter ∈ [TITLE; LOCATION; KEY_ID] ->
   returns (GlassDoor.get config parameter soup))
  /\ (parameter ∉ GlassDoor.job_get_fields ->
      GlassDoor.get config parameter soup = Raise NotImplementedError)
  /\ (parameter ∈ [COMPANY; URL] ->
      GlassDoor.get config parameter soup = Raise e -> e = AttributeError).
Proof.
  split; [| split].
  - intros Hin. elem_cases Hin; exact I.
  - intros Hnot. destruct parameter; try reflexivity;
      exfalso; apply Hnot; unfold GlassDoor.job_get_fields; repeat constructor.
  - intros Hin. elem_cases Hin; simpl.
    + destruct (find soup _); simpl; intros [=]; congruence.
    + destruct (find soup _) as [wrap |]; simpl; [| intros [=]; congruence].
      destruct (find wrap _); simpl; intros [=]; congruence.
Qed.

(** X8. Monster's [set]: for a field outside [job_set_fields] it raises
    NotImplementedError and sends nothing; for KEY_ID it sends nothing;
    for DESCRIPTION it sends at most one request, a GET of the URL of the
    job; and when it returns, the job differs from the one given in the
    attribute of that field only, which holds a string. *)
Theorem monster_set_effects (parameter : JobField) (job : Job) (soup : Soup)
    (log : list Request) :
  (parameter ∉ Monster.job_set_fields ->
   Monster.set parameter job soup log = (Raise NotImplementedError, log))
  /\ (parameter = KEY_ID -> (Monster.set parameter job soup log).2 = log)
  /\ (parameter = DESCRIPTION ->
      (Monster.set parameter job soup log).2 = log
      \/ exists address,
           job !! URL = Some (VStr address)
           /\ (Monster.set parameter job soup log).2 = log ++ [GET address])
  /\ (forall job',
        (Monster.set parameter job soup log).1 = Return job' ->
        exists v, job' = <[parameter := VStr v]> job).
Proof.
  split; [| split; [| split]].
  - intros Hnot. destruct parameter; try reflexivity;
      exfalso; apply Hnot; unfold Monster.job_set_fields; repeat constructor.
  - intros ->. reflexivity.
  - intros ->. simpl. unfold mbind, IO_bind, lift, send_get, job_url.
    destruct (job !! URL) as [[| address |] |]; simpl; auto.
    right. exists address. split; [reflexivity |].
    destruct (session_get address); [| reflexivity].
    destruct (deref _); reflexivity.
  - intros job'. destruct parameter; simpl; try discriminate.
    + unfold lift. simpl. destruct (job_url job); simpl; [| discriminate].
      destruct (index0 _); simpl; [| discriminate].
      intros [= <-]. eauto.
    + unfold mbind, IO_bind, lift, send_get.
      destruct (job_url job) as [address |]; simpl; [| discriminate].
      destruct (session_get address); simpl; [| discriminate].
      destruct (deref _); simpl; [| discriminate].
      intros [= <-]. eauto.
Qed.

End Dispatch.

(** ** Further properties: the key of a Monster listing *)

Lemma length_append (x y : string) :
  String.length (x +:+ y) = (String.length x + String.length y)%nat.
Proof.
  induction x as [| c x IH]; [reflexivity |].
  change (String c x +:+ y) with (String c (x +:+ y)). simpl. rewrite IH. reflexivity.
Qed.

Lemma take_class_length (p : ascii -> bool) (n : nat) (s m r : string) :
  Re.take_class p n s = Some (m, r) -> String.length m = n.
Proof.
  revert s m r. induction n as [| n IH]; intros s m r; simpl.
  - intros [= <- _]. reflexivity.
  - destruct s as [| c s]; [discriminate |].
    destruct (p c); [| discriminate].
    destruct (Re.take_class p n s) as [[m' r'] |] eqn:Hrest; [| discriminate].
    intros [= <- _]. simpl. f_equal. eapply IH. eassumption.
Qed.

Lemma match_uuid_length (s g : string) :
  Re.match_uuid s = Some g -> String.length g = 36%nat.
Proof.
  unfold Re.match_uuid, Re.take_dash. intros Hg.
  repeat match type of Hg with
         | context [Re.take_class ?p ?n ?t] =>
             let H := fresh "Hpiece" in
             destruct (Re.take_class p n t) as [[? ?] |] eqn:H;
             [apply take_class_length in H | discriminate];
             cbn -[Re.take_class] in Hg
         end.
  injection Hg as <-. rewrite !length_append.
  repeat match goal with H : String.length _ = _ |- _ => rewrite H; clear H end.
  reflexivity.
Qed.

Lemma match_ID_shape (s g : string) :
  Re.match_ID s = Some g ->
  g <> "" /\ (Re.all_digits g = true \/ String.length g = 36%nat).
Proof.
  unfold Re.match_ID.
  destruct s as [| c s]; [discriminate |].
  destruct (Ascii.eqb_spec c "/") as [-> | Hc].
  - destruct (Re.match_uuid s) as [u |] eqn:Hu.
    + intros [= <-]. pose proof (match_uuid_length s u Hu) as Hlen.
      split; [| right; assumption]. intros ->. discriminate.
    + pose proof (digit_prefix_all_digits s) as Hd.
      destruct (Re.digit_prefix s) as [| d ds]; [discriminate |].
      intros [= <-]. split; [discriminate | left; assumption].
  - destruct c as [[] [] [] [] [] [] [] []]; try discriminate.
    contradiction Hc. reflexivity.
Qed.

Lemma ID_REGEX_findall_from_keys (s : string) (skip : nat) :
  Forall (fun key => key <> "" /\ (Re.all_digits key = true
                                   \/ String.length key = 36%nat))
         (Re.ID_REGEX_findall_from skip s).
Proof.
  revert skip. induction s as [| c s IH]; intros skip; [constructor |].
  cbn [Re.ID_REGEX_findall_from].
  destruct skip as [| k]; [| apply IH].
  destruct (Re.match_ID (String c s)) as [g |] eqn:Hg; [| apply IH].
  constructor; [exact (match_ID_shape _ _ Hg) | apply IH].
Qed.

(** X9. Every key that ID_REGEX finds in an address is non-empty, and is
    either a run of digits or a text of 36 characters (the UUID form); so
    the key_id that Monster's [set] writes, the first key found in the URL
    of the job, is never the empty string. *)
Theorem ID_REGEX_keys `{DocumentParser} `{Session} (s : string) (job job' : Job)
    (soup : Soup) (log : list Request) :
  Forall (fun key => key <> "" /\ (Re.all_digits key = true
                                   \/ String.length key = 36%nat))
         (Re.ID_REGEX_findall s)
  /\ ((Monster.set KEY_ID job soup log).1 = Return job' ->
      exists key,
        job' !! KEY_ID = Some (VStr key)
        /\ key <> ""
        /\ (Re.all_digits key = true \/ String.length key = 36%nat)).
Proof.
  split; [apply ID_REGEX_findall_from_keys |].
  simpl. unfold lift. simpl.
  destruct (job_url job) as [address |]; simpl; [| discriminate].
  pose proof (ID_REGEX_findall_from_keys address 0) as Hkeys.
  fold (Re.ID_REGEX_findall address) in Hkeys.
  destruct (Re.ID_REGEX_findall address) as [| key keys]; simpl; [discriminate |].
  intros [= <-]. inversion Hkeys as [| ? ? [Hne Hshape] _]; subst.
  exists key. split; [apply lookup_insert_eq | split; assumption].
Qed.

Lemma ID_REGEX_keys_witness :
  exists key,
    (<[KEY_ID := VStr "219876543"]>
       (<[URL := VStr "https://job-openings.monster.ca/data-engineer/219876543"]> ∅ : Job))
      !! KEY_ID = Some (VStr key)
    /\ key <> "".
Proof.
  destruct (@ID_REGEX_keys Fixture.bs4 Fixture.requests_session ""
              (<[URL := VStr "https://job-openings.monster.ca/data-engineer/219876543"]> ∅)
              (<[KEY_ID := VStr "219876543"]>
                 (<[URL := VStr "https://job-openings.monster.ca/data-engineer/219876543"]> ∅))
              Fixture.monster_listing_2 []) as [_ Hset].
  destruct (Hset eq_refl) as [key [Hkey [Hne _]]].
  exists key. split; assumption.
Defined.

(** ** Further properties: the edges of the GlassDoor call *)

Lemma mapM_result_raise_head {A B} (f : A -> result B) (x : A) (l : list A)
    (e : Exception) :
  f x = Raise e -> mapM f (x :: l) = Raise e.
Proof. intros Hx. simpl. rewrite Hx. reflexivity. Qed.

Lemma mapM_result_raise_tail {A B} (f : A -> result B) (x : A) (l : list A) (y : B)
    (e : Exception) :
  f x = Return y -> mapM f l = Raise e -> mapM f (x :: l) = Raise e.
Proof. intros Hx Hl. simpl. rewrite Hx. simpl. rewrite Hl. reflexivity. Qed.

Section GlassDoorEdges.
Context `{DocumentParser} `{Session}.
Variable config : SearchConfig.
Variable max_results_per_page : Z.
Variable search_url : string.
Variable data : FormData.
Variable request_html : Response.

Import GlassDoor.

#[local] Abbreviation listings :=
  (get_job_soups_from_search_result_listings config max_results_per_page
                                             search_url data).
#[local] Abbreviation soup_base := (BeautifulSoup (response_text request_html)).

Lemma empty_pool_is_over (reqs : list Request) (soups : list Soup) (p : Pool) :
  wait {| futures_list := []; requests := reqs; job_soup_list := soups |} p ->
  p = {| futures_list := []; requests := reqs; job_soup_list := soups |}.
Proof.
  intros [Hrun _]. inversion Hrun as [| ? q ? Hstep _]; [reflexivity |].
  inversion Hstep; subst; simpl in *; discriminate.
Qed.

(** X10. When the count gives no page to fetch ([n_pages <= 0], as for a
    search that reports 0 jobs), the loop submits no task: the call
    returns the empty list and has sent the POST of the search only; the
    listings of the first page, though fetched, are not used. *)
Theorem glassdoor_no_page_planned (n_pages : Z) (o : Outcome) :
  session_post search_url data = Some request_html ->
  _get_num_search_result_pages max_results_per_page soup_base = Return n_pages ->
  n_pages <= 0 ->
  listings o <-> o = Returned [] [POST search_url data].
Proof.
  intros Hpost Hcount Hn.
  assert (submitted config request_html soup_base n_pages = Return []) as Hloop.
  { unfold submitted, seqZ. replace (Z.to_nat n_pages) with 0%nat by lia. reflexivity. }
  split.
  - intros Ho. inversion Ho as [| | | r n l p Hp Hc Hl Hwait]; subst; try congruence.
    assert (r = request_html) as -> by congruence.
    assert (n = n_pages) as -> by congruence.
    assert (l = []) as -> by congruence.
    apply empty_pool_is_over in Hwait. subst p. reflexivity.
  - intros ->.
    apply (pool_returns config max_results_per_page search_url data request_html
             n_pages [] {| futures_list := []; requests := [POST search_url data];
                           job_soup_list := [] |} Hpost Hcount Hloop).
    split; [apply rtc_refl | constructor].
Qed.

(** X11. When two pages or more are planned and the first page has no next
    link (no li of class next, or no anchor in it), the loop raises
    AttributeError at page 2 and the call raises it, nothing being
    returned; with one page planned the link is not looked up and the call
    returns. *)
Theorem glassdoor_missing_next_link (n_pages : Z) (o : Outcome) :
  session_post search_url data = Some request_html ->
  _get_num_search_result_pages max_results_per_page soup_base = Return n_pages ->
  (find soup_base (TagAttrSet "li" "class" "next") = None
   \/ exists li, find soup_base (TagAttrSet "li" "class" "next") = Some li
                 /\ find li (Tag "a") = None) ->
  (2 <= n_pages -> (listings o <-> o = Raised AttributeError))
  /\ (n_pages = 1 ->
      (exists soups reqs, listings (Returned soups reqs))
      /\ (listings o ->
          exists soups reqs,
            o = Returned soups reqs
            /\ reqs ≡ₚ [POST search_url data; GET (url request_html)]
            /\ soups ≡ₚ page_listings (url request_html))).
Proof.
  intros Hpost Hcount Hlink. split.
  - intros Hn.
    apply (loop_failure_is_the_outcome config max_results_per_page search_url data
             request_html Hpost n_pages Hcount).
    unfold submitted. rewrite seqZ_cons by lia.
    rewrite (seqZ_cons (Z.succ 1)) by lia.
    eapply mapM_result_raise_tail; [reflexivity |].
    apply mapM_result_raise_head.
    unfold task_url. change (Z.succ 1 =? 1) with false. cbv iota.
    unfold page_url.
    destruct Hlink as [Hli | [li [Hli Ha]]]; rewrite Hli; simpl;
      [| rewrite Ha]; reflexivity.
  - intros ->.
    assert (submitted config request_html soup_base 1 = Return [url request_html])
      as Hloop by reflexivity.
    split.
    + eapply listings_return; eassumption.
    + intros Ho.
      destruct (listings_returned config max_results_per_page search_url data
                  request_html Hpost 1 Hcount _ Hloop o Ho)
        as [soups [reqs [-> [Hreqs Hsoups]]]].
      exists soups, reqs. split; [reflexivity |]. split; [exact Hreqs |].
      rewrite Hsoups. simpl. rewrite app_nil_r. reflexivity.
Qed.

(** X12. The failures of GlassDoor's [_get_num_search_result_pages]:
    AttributeError when the page has no jobsCount element, IndexError when
    the text of the element holds no digit, ValueError when its first run
    of digits (commas removed) has more than 4300 digits, whatever the
    page size, and ZeroDivisionError when the run is within that limit and
    the page size is 0. *)
Theorem glassdoor_count_failures (soup el : Soup) :
  (find soup (TagAttrSet "p" "class" "jobsCount") = None ->
   _get_num_search_result_pages max_results_per_page soup = Raise AttributeError)
  /\ (find soup (TagAttrSet "p" "class" "jobsCount") = Some el ->
      (Spec.contains_digit (strip (text el)) = false ->
       _get_num_search_result_pages max_results_per_page soup = Raise IndexError)
      /\ (too_long (first_run (replace "," "" (strip (text el)))) = true ->
          _get_num_search_result_pages max_results_per_page soup = Raise ValueError)
      /\ (Spec.contains_digit (strip (text el)) = true ->
          too_long (first_run (replace "," "" (strip (text el)))) = false ->
          max_results_per_page = 0 ->
          _get_num_search_result_pages max_results_per_page soup
          = Raise ZeroDivisionError)).
Proof.
  unfold _get_num_search_result_pages, pages_of_text, total_of_text. split.
  - intros ->. reflexivity.
  - intros ->. simpl. split; [| split].
    + intros Hdigits. rewrite <- contains_digit_replace_comma in Hdigits.
      apply findall_digits_nil in Hdigits. rewrite Hdigits. reflexivity.
    + apply pages_raise_ValueError.
    + intros Hdigits Hrun ->. rewrite <- contains_digit_replace_comma in Hdigits.
      unfold first_run in Hrun.
      destruct (findall_digits (replace "," "" (strip (text el)))) as [| run runs] eqn:Hruns.
      * apply findall_digits_nil in Hruns. congruence.
      * simpl in Hrun |- *. unfold int_of_str. rewrite Hrun. reflexivity.
Qed.

End GlassDoorEdges.

(** ** Further properties: Monster's planning request *)

Section MonsterEdges.
Context `{DocumentParser} `{Session}.

Import Monster.

(** X13. The failures of Monster's [_get_num_search_result_pages]:
    RequestException when the request of the search address raises,
    AttributeError when the page has no h2 of class figure, IndexError when
    the text of that element holds no digit.  In each case one request has
    been sent, the GET of the search address; and the whole call sends
    two requests at most. *)
Theorem monster_count_failures (self : Class) (config : SearchConfig)
    (search_url : string) (log : list Request) (response : Response) (el : Soup) :
  (session_get search_url = None ->
   _get_num_search_result_pages search_url log
   = (Raise RequestException, log ++ [GET search_url]))
  /\ (session_get search_url = Some response ->
      (find (BeautifulSoup (response_text response)) (TagClass "h2" "figure") = None ->
       _get_num_search_result_pages search_url log
       = (Raise AttributeError, log ++ [GET search_url]))
      /\ (find (BeautifulSoup (response_text response)) (TagClass "h2" "figure")
          = Some el ->
          Spec.contains_digit (strip (text el)) = false ->
          _get_num_search_result_pages search_url log
          = (Raise IndexError, log ++ [GET search_url])))
  /\ (_get_search_url self config "get" = Return search_url ->
      (length (get_job_soups_from_search_result_listings self config log).2
       <= length log + 2)%nat).
Proof.
  unfold _get_num_search_result_pages, mbind, IO_bind, send_get, lift.
  split; [| split].
  - intros ->. reflexivity.
  - intros ->. split.
    + intros ->. reflexivity.
    + intros -> Hdigits. simpl. unfold pages_of_text, total_of_text.
      apply findall_digits_nil in Hdigits. rewrite Hdigits. reflexivity.
  - intros Hurl. rewrite (monster_listings_unfold self config search_url Hurl).
    fold (send_get search_url).
    change (_get_num_search_result_pages search_url log) with
      (_get_num_search_result_pages search_url log).
    destruct (_get_num_search_result_pages search_url log) as [[pages | e] log1] eqn:Hplan.
    + rewrite (monster_page_request search_url).
      rewrite (monster_count_request search_url log log1 _ Hplan).
      simpl. rewrite !length_app. simpl. lia.
    + rewrite (monster_count_request search_url log log1 _ Hplan).
      simpl. rewrite length_app. simpl. lia.
Qed.

End MonsterEdges.

(** ** Further properties: the shared list of the pool *)

Section PoolOrder.
Context `{DocumentParser} `{Session}.

Import GlassDoor.

Lemma step_appends (p p' : Pool) :
  step p p' ->
  requests p `prefix_of` requests p'
  /\ job_soup_list p `prefix_of` job_soup_list p'
  /\ length (futures_list p') = length (futures_list p).
Proof.
  intros Hstep. destruct Hstep; simpl; rewrite length_insert;
    repeat split; try reflexivity; apply prefix_app_r; reflexivity.
Qed.

(** X14. The tasks of the pool only append: while the pool runs, what has
    been appended to the shared list of listings stays at its place (the
    list before is a prefix of the list after), the same holds for the
    requests sent, and no future is added or lost. *)
Theorem pool_only_appends (p p' : Pool) :
  wait p p' ->
  requests p `prefix_of` requests p'
  /\ job_soup_list p `prefix_of` job_soup_list p'
  /\ length (futures_list p') = length (futures_list p).
Proof.
  intros [Hrun _]. induction Hrun as [p | p q p' Hstep _ IH].
  - repeat split; reflexivity.
  - destruct (step_appends p q Hstep) as [Hr [Hs Hl]].
    destruct IH as [IHr [IHs IHl]].
    repeat split; [etransitivity; eassumption .. | congruence].
Qed.

Lemma step_keeps_blocks (p p' : Pool) (blocks : list (list Soup)) :
  step p p' ->
  job_soup_list p = concat blocks ->
  exists blocks',
    job_soup_list p' = concat blocks'
    /\ blocks' ++ (futures_list p' ≫= owed_blocks)
       ≡ₚ blocks ++ (futures_list p ≫= owed_blocks).
Proof.
  intros Hstep Hblocks.
  destruct Hstep as [p i address response Hi Hget | p i address Hi Hget | p i job Hi];
    simpl in *;
    destruct (bind_insert_split owed_blocks _ _ _ Hi) as [rest [Hr Hr']].
  - exists blocks. split; [assumption |].
    rewrite Hr, Hr'. simpl. unfold page_listings. rewrite Hget. reflexivity.
  - exists (blocks ++ [[]]). split.
    + rewrite concat_app, Hblocks. simpl. rewrite app_nil_r. reflexivity.
    + rewrite Hr, Hr'. simpl. unfold page_listings.
      rewrite Hget, <- app_assoc. reflexivity.
  - exists (blocks ++ [job]). split.
    + rewrite concat_app, Hblocks. simpl. rewrite app_nil_r. reflexivity.
    + rewrite Hr, Hr'. simpl. rewrite <- app_assoc. reflexivity.
Qed.

Lemma finished_owes_no_block (fs : list Future) :
  Forall finished fs -> fs ≫= owed_blocks = [].
Proof.
  induction 1 as [| f fs Hf _ IH]; [reflexivity |].
  rewrite bind_cons, IH. destruct f; simpl in *; try contradiction; reflexivity.
Qed.

Lemma wait_keeps_blocks (p p' : Pool) (blocks : list (list Soup)) :
  wait p p' ->
  job_soup_list p = concat blocks ->
  exists blocks',
    job_soup_list p' = concat blocks'
    /\ blocks' ≡ₚ blocks ++ (futures_list p ≫= owed_blocks).
Proof.
  intros [Hrun Hdone]. revert blocks.
  induction Hrun as [p | p q p' Hstep _ IH]; intros blocks Hblocks.
  - exists blocks. split; [assumption |].
    rewrite (finished_owes_no_block _ Hdone), app_nil_r. reflexivity.
  - destruct (step_keeps_blocks p q blocks Hstep Hblocks) as [blocks1 [Hq Hperm]].
    destruct (IH Hdone blocks1 Hq) as [blocks' [Hp' Hperm']].
    exists blocks'. split; [assumption |]. rewrite Hperm'. exact Hperm.
Qed.

(** X15. A task appends the listings of its page in one piece: the list
    that the call returns is the concatenation of the lists of the planned
    pages, each whole and in its own order, the pages coming in the order
    in which their tasks finished (a page whose request failed giving the
    empty list). *)
Theorem glassdoor_pages_are_appended_whole (config : SearchConfig)
    (max_results_per_page : Z) (search_url : string) (data : FormData)
    (request_html : Response) (n_pages : Z) (addresses : list string)
    (soups : list Soup) (reqs : list Request) :
  session_post search_url data = Some request_html ->
  _get_num_search_result_pages max_results_per_page
    (BeautifulSoup (response_text request_html)) = Return n_pages ->
  submitted config request_html (BeautifulSoup (response_text request_html)) n_pages
  = Return addresses ->
  get_job_soups_from_search_result_listings config max_results_per_page
    search_url data (Returned soups reqs) ->
  exists blocks,
    soups = concat blocks
    /\ blocks ≡ₚ page_listings <$> addresses.
Proof.
  intros Hpost Hcount Hloop Hrun.
  inversion Hrun as [| | | r n l p Hp Hc Hl Hwait]; subst.
  assert (r = request_html) as -> by congruence.
  assert (n = n_pages) as -> by congruence.
  assert (l = addresses) as -> by congruence.
  destruct (wait_keeps_blocks _ p [] Hwait eq_refl) as [blocks [Hsoups Hperm]].
  exists blocks. split; [assumption |].
  rewrite Hperm. simpl. clear.
  induction addresses as [| a l IH]; [reflexivity |].
  rewrite !fmap_cons, bind_cons. simpl. rewrite IH. reflexivity.
Qed.

End PoolOrder.

(** ** Further properties: the two planners on one text *)

Lemma replace_without_occurrence (old : ascii) (new s : string) :
  Re.contains old s = false -> replace old new s = s.
Proof.
  induction s as [| c s IH]; [reflexivity |].
  cbn [Re.contains replace]. intros Hs. apply orb_false_elim in Hs as [Hc Hs].
  rewrite Hc, (IH Hs). reflexivity.
Qed.

(** X16. On a count text without comma the two planners extract the same
    total, and plan the same number of pages when GlassDoor's page size is
    Monster's. *)
Theorem planners_agree_without_separator (t : string) :
  Re.contains "," t = false ->
  Monster.total_of_text t = GlassDoor.total_of_text t
  /\ Monster.pages_of_text t
     = GlassDoor.pages_of_text Monster.MAX_RESULTS_PER_MONSTER_PAGE t.
Proof.
  intros Ht.
  unfold Monster.pages_of_text, GlassDoor.pages_of_text,
    Monster.total_of_text, GlassDoor.total_of_text.
  rewrite (replace_without_occurrence _ _ _ Ht). split; reflexivity.
Qed.

Lemma planners_agree_without_separator_witness :
  Re.contains "," "(60 Jobs Found)" = false
  /\ Monster.total_of_text "(60 Jobs Found)" = GlassDoor.total_of_text "(60 Jobs Found)"
  /\ Monster.pages_of_text "(60 Jobs Found)"
     = GlassDoor.pages_of_text Monster.MAX_RESULTS_PER_MONSTER_PAGE "(60 Jobs Found)".
Proof.
  split; [reflexivity |].
  apply (planners_agree_without_separator "(60 Jobs Found)"). reflexivity.
Defined.

(** ** Further properties: the page addresses, when the link has a page number *)

Lemma append_assoc (x y z : string) : (x +:+ y) +:+ z = x +:+ (y +:+ z).
Proof.
  induction x as [| c x IH]; [reflexivity |].
  change (String c x +:+ y) with (String c (x +:+ y)).
  change (String c (x +:+ y) +:+ z) with (String c ((x +:+ y) +:+ z)).
  rewrite IH. reflexivity.
Qed.

Lemma uint_text_all_digits (u : Decimal.uint) :
  Re.all_digits (NilEmpty.string_of_uint u) = true.
Proof. induction u; simpl; assumption || reflexivity. Qed.

Lemma str_of_int_all_digits (n : Z) : 0 <= n -> Re.all_digits (str_of_int n) = true.
Proof.
  intros Hn. unfold str_of_int. destruct n as [| p | p]; [reflexivity | | lia].
  simpl. pose proof (DecimalPos.Unsigned.to_uint_nonnil p) as Hnil.
  pose proof (uint_text_all_digits (Pos.to_uint p)) as Hd.
  destruct (Pos.to_uint p); [contradiction | assumption ..].
Qed.

Lemma str_of_int_inj (p q : Z) : str_of_int p = str_of_int q -> p = q.
Proof.
  unfold str_of_int. intros Heq.
  assert (forall z, NilZero.int_of_string (NilZero.string_of_int (Z.to_int z))
                    = Some (Z.to_int z)) as Hback.
  { intros z. apply NilZero.isi; destruct z; simpl; intros [= Hz];
      exact (DecimalPos.Unsigned.to_uint_nonnil _ Hz) || discriminate. }
  pose proof (Hback p) as Hp. rewrite Heq, Hback in Hp. injection Hp as Hp.
  rewrite <- (DecimalZ.of_to p), <- (DecimalZ.of_to q), Hp. reflexivity.
Qed.

Lemma digits_before_dot (d1 d2 x y : string) :
  Re.all_digits d1 = true -> Re.all_digits d2 = true ->
  d1 +:+ String "." x = d2 +:+ String "." y -> d1 = d2.
Proof.
  revert d2. induction d1 as [| c d1 IH]; intros d2 H1 H2 Heq.
  - destruct d2 as [| c d2]; [reflexivity |].
    simpl in H2. apply andb_prop in H2 as [Hc _].
    injection Heq as <- _. discriminate.
  - destruct d2 as [| c' d2].
    + simpl in H1. apply andb_prop in H1 as [Hc _].
      injection Heq as -> _. discriminate.
    + simpl in H1, H2. apply andb_prop in H1 as [_ H1]. apply andb_prop in H2 as [_ H2].
      injection Heq as -> Heq. f_equal. exact (IH d2 H1 H2 Heq).
Qed.

Lemma sub_IP_tells_the_page (d1 d2 s : string) :
  Re.all_digits d1 = true -> Re.all_digits d2 = true ->
  Re.search_IP s = true ->
  Re.sub_IP ("_IP" +:+ d1 +:+ ".") s = Re.sub_IP ("_IP" +:+ d2 +:+ ".") s ->
  d1 = d2.
Proof.
  intros H1 H2. unfold Re.sub_IP. induction s as [| c s IH]; [discriminate |].
  cbn [Re.search_IP Re.sub_IP_from].
  destruct (Re.match_IP (String c s)) as [n |].
  - intros _ Heq. rewrite !append_assoc in Heq.
    change ("_IP" +:+ ?r) with (String "_" (String "I" (String "P" r))) in Heq.
    injection Heq as Heq.
    exact (digits_before_dot d1 d2 _ _ H1 H2 Heq).
  - intros Hs Heq. injection Heq as Heq. apply IH; assumption.
Qed.

(** X17. When the address built from the next link of the first page has
    a match of [_IP<digits>.], two different page indices get two different
    page addresses: the page index can be read back from the address. *)
Theorem glassdoor_pages_have_their_own_address `{DocumentParser}
    (config : SearchConfig) (soup_base li a : Soup) (p q : Z) :
  find soup_base (TagAttrSet "li" "class" "next") = Some li ->
  find li (Tag "a") = Some a ->
  Re.search_IP ("https://www.glassdoor." +:+ domain config
                +:+ str_of_optional (tag_get a "href")) = true ->
  0 <= p -> 0 <= q -> p <> q ->
  GlassDoor.page_url config soup_base p <> GlassDoor.page_url config soup_base q.
Proof.
  intros Hli Ha Hmatch Hp Hq Hne.
  assert (forall page,
            GlassDoor.page_url config soup_base page
            = Return (Re.sub_IP ("_IP" +:+ str_of_int page +:+ ".")
                        ("https://www.glassdoor." +:+ domain config
                         +:+ str_of_optional (tag_get a "href")))) as Hpage.
  { intros page. unfold GlassDoor.page_url. rewrite Hli.
    change (deref (Some li) ≫= ?k) with (k li). cbv beta. rewrite Ha.
    reflexivity. }
  rewrite !Hpage. intros Heq.
  assert (forall x y : string, Return x = Return y -> x = y) as Hinj
    by (intros x y [=]; assumption).
  apply Hinj in Heq.
  apply Hne, str_of_int_inj.
  exact (sub_IP_tells_the_page _ _ _ (str_of_int_all_digits p Hp)
           (str_of_int_all_digits q Hq) Hmatch Heq).
Qed.

Lemma glassdoor_pages_have_their_own_address_witness :
  2 <> 3
  /\ @GlassDoor.page_url Fixture.bs4 Fixture.config
       (@BeautifulSoup Fixture.bs4 "glassdoor: 65 jobs") 2
     <> @GlassDoor.page_url Fixture.bs4 Fixture.config
          (@BeautifulSoup Fixture.bs4 "glassdoor: 65 jobs") 3.
Proof.
  split; [lia |].
  apply (@glassdoor_pages_have_their_own_address Fixture.bs4 Fixture.config
           (@BeautifulSoup Fixture.bs4 "glassdoor: 65 jobs")
           (Fixture.Node "" []
              [(Tag "a", Fixture.Node ""
                           [("href", "/Job/python-jobs-SRCH_KO0,6_IP2.htm")] [] [])]
              [])
           (Fixture.Node "" [("href", "/Job/python-jobs-SRCH_KO0,6_IP2.htm")] [] [])
           2 3); try reflexivity; lia.
Defined.

(** ** Further properties: the scrapers of a config *)

Section FunnelScrapers.
Context {Provider Locale ScraperClass : Type}.
Context `{Countable Provider} `{Countable Locale}.
Variable SCRAPER_FROM_LOCALE : gmap Provider (gmap Locale ScraperClass).
Variable DRIVEN_SCRAPER_FROM_LOCALE : gmap Provider (gmap Locale ScraperClass).

Import Funnel.

#[local] Abbreviation scraper_of' :=
  (scraper_of SCRAPER_FROM_LOCALE DRIVEN_SCRAPER_FROM_LOCALE).
#[local] Abbreviation registry_of' :=
  (registry_of SCRAPER_FROM_LOCALE DRIVEN_SCRAPER_FROM_LOCALE).

Lemma scraper_of_got (self : JobFunnelConfig) (pr : Provider) (c : ScraperClass) :
  scraper_of' self pr = Got c
  <-> registry_of' self pr !! pr ≫= (fun by_locale => by_locale !! locale self)
      = Some c.
Proof.
  unfold scraper_of, registry_of, entry.
  destruct (web_driven_scraping self
            && bool_decide (is_Some (DRIVEN_SCRAPER_FROM_LOCALE !! pr))).
  - destruct (_ ≫= _); split; intros [=]; subst; reflexivity.
  - destruct (bool_decide (is_Some (SCRAPER_FROM_LOCALE !! pr))) eqn:Hknown.
    + destruct (_ ≫= _); split; intros [=]; subst; reflexivity.
    + apply bool_decide_eq_false in Hknown.
      destruct (SCRAPER_FROM_LOCALE !! pr) as [by_locale |] eqn:Hpr.
      * exfalso. apply Hknown. eauto.
      * simpl. split; intros [=].
Qed.

Lemma scrapers_from_got (self : JobFunnelConfig) (prs : list Provider)
    (acc l : list ScraperClass) :
  scrapers_from SCRAPER_FROM_LOCALE DRIVEN_SCRAPER_FROM_LOCALE self prs acc = Got l
  <-> exists k, l = acc ++ k
                /\ Forall2 (fun pr c => scraper_of' self pr = Got c) prs k.
Proof.
  revert acc. induction prs as [| pr prs IH]; intros acc; simpl.
  - split.
    + intros [= <-]. exists []. rewrite app_nil_r. split; [reflexivity | constructor].
    + intros [k [-> Hk]]. inversion Hk. rewrite app_nil_r. reflexivity.
  - destruct (scraper_of' self pr) as [c | e] eqn:Hpr.
    + rewrite IH. split.
      * intros [k [-> Hk]]. exists (c :: k). rewrite <- app_assoc.
        split; [reflexivity |]. constructor; assumption.
      * intros [k [-> Hk]]. inversion Hk as [| ? c' ? k' Hc Hk']; subst.
        assert (c' = c) as -> by congruence.
        exists k'. rewrite <- app_assoc. split; [reflexivity | assumption].
    + split; [discriminate |].
      intros [k [_ Hk]]. inversion Hk; subst. congruence.
Qed.

(** X18. When [scrapers] returns, it returns one scraper class per
    configured provider, in the order of the providers: for each provider
    the entry for the config's locale in the driven registry when
    [web_driven_scraping] is set and the provider is in that registry, and
    in the ordinary registry otherwise. *)
Theorem scrapers_one_per_provider (self : JobFunnelConfig) (l : list ScraperClass) :
  scrapers SCRAPER_FROM_LOCALE DRIVEN_SCRAPER_FROM_LOCALE self = Got l ->
  length l = length (providers self)
  /\ Forall2 (fun pr c =>
                registry_of' self pr !! pr
                  ≫= (fun by_locale => by_locale !! locale self) = Some c)
             (providers self) l.
Proof.
  unfold scrapers. intros Hl. apply scrapers_from_got in Hl as [k [-> Hk]].
  simpl. split; [symmetry; exact (Forall2_length _ _ _ Hk) |].
  eapply Forall2_impl; [exact Hk |].
  intros pr c Hc. apply scraper_of_got, Hc.
Qed.

(** X19. [scrapers] returns if and only if every configured provider has
    an entry for the config's locale in the registry read for it; a
    provider that is in neither registry makes it raise. *)
Theorem scrapers_returns_iff (self : JobFunnelConfig) (pr : Provider) :
  ((exists l, scrapers SCRAPER_FROM_LOCALE DRIVEN_SCRAPER_FROM_LOCALE self = Got l)
   <-> Forall (fun pr =>
                 is_Some (registry_of' self pr !! pr
                            ≫= (fun by_locale => by_locale !! locale self)))
              (providers self))
  /\ (pr ∈ providers self ->
      SCRAPER_FROM_LOCALE !! pr = None ->
      DRIVEN_SCRAPER_FROM_LOCALE !! pr = None ->
      exists e, scrapers SCRAPER_FROM_LOCALE DRIVEN_SCRAPER_FROM_LOCALE self = Fail e).
Proof.
  assert ((exists l, scrapers SCRAPER_FROM_LOCALE DRIVEN_SCRAPER_FROM_LOCALE self = Got l)
          <-> Forall (fun pr =>
                        is_Some (registry_of' self pr !! pr
                                   ≫= (fun by_locale => by_locale !! locale self)))
                     (providers self)) as Hiff.
  { unfold scrapers. split.
    - intros [l Hl]. apply scrapers_from_got in Hl as [k [_ Hk]].
      induction Hk as [| p c prs k Hc _ IH]; constructor; [| exact IH].
      apply scraper_of_got in Hc. rewrite Hc. eauto.
    - intros Hall.
      assert (exists k, Forall2 (fun pr c => scraper_of' self pr = Got c)
                                (providers self) k) as [k Hk].
      { induction Hall as [| p prs [c Hc] _ [k IH]].
        - exists []. constructor.
        - exists (c :: k). constructor; [apply scraper_of_got, Hc | exact IH]. }
      exists k. apply scrapers_from_got. exists k. split; [reflexivity | exact Hk]. }
  split; [exact Hiff |].
  intros Hin Hs Hd.
  destruct (scrapers SCRAPER_FROM_LOCALE DRIVEN_SCRAPER_FROM_LOCALE self)
    as [l | e] eqn:Hl; [| eauto].
  exfalso. pose proof (proj1 Hiff (ex_intro _ l eq_refl)) as Hall.
  rewrite Forall_forall in Hall. destruct (Hall pr Hin) as [c Hc].
  unfold registry_of in Hc.
  destruct (web_driven_scraping self && _);
    [rewrite Hd in Hc | rewrite Hs in Hc]; discriminate.
Qed.

(** X20. Without [web_driven_scraping] the driven registry is not read:
    [scrapers] gives the same result whatever that registry holds. *)
Theorem scrapers_ignores_driven_registry
    (other : gmap Provider (gmap Locale ScraperClass)) (self : JobFunnelConfig) :
  web_driven_scraping self = false ->
  scrapers SCRAPER_FROM_LOCALE DRIVEN_SCRAPER_FROM_LOCALE self
  = scrapers SCRAPER_FROM_LOCALE other self.
Proof.
  intros Hoff. unfold scrapers. generalize (@nil ScraperClass) as acc.
  induction (providers self) as [| pr prs IH]; intros acc; [reflexivity |].
  simpl. unfold scraper_of. rewrite Hoff. simpl.
  destruct (bool_decide _); [| reflexivity].
  destruct (entry _ _ _); [apply IH | reflexivity].
Qed.

End FunnelScrapers.


(** ** Further properties: examples *)

Lemma monster_get_failures_witness :
  @find Edge.bs4 Edge.monster_listing_without_href (TagAttr "a" "data-bypass" "true")
  = Some (Fixture.Node "" [] [] [])
  /\ @Monster.get Edge.bs4 Fixture.tools URL Edge.monster_listing_without_href
     = Return (VStr "None")
  /\ @Monster.get Edge.bs4 Fixture.tools KEY_ID Edge.monster_listing_without_href
     = Raise NotImplementedError.
Proof.
  split; [reflexivity |].
  destruct (monster_get_failures (H := Edge.bs4) (H1 := Fixture.tools) KEY_ID
              Edge.monster_listing_without_href (Fixture.Node "" [] [] [])
              AttributeError) as [Hother [_ Hlink]].
  split.
  - exact (proj1 (Hlink eq_refl eq_refl)).
  - apply Hother. unfold Monster.job_get_fields. intros Hin.
    elem_cases Hin; discriminate.
Defined.

Lemma glassdoor_get_failures_witness :
  returns (@GlassDoor.get Fixture.bs4 Fixture.tools Fixture.config TITLE
             Fixture.monster_listing_1)
  /\ @GlassDoor.get Fixture.bs4 Fixture.tools Fixture.config DESCRIPTION
       Fixture.monster_listing_1
     = Raise NotImplementedError.
Proof.
  split.
  - apply (glassdoor_get_failures (H := Fixture.bs4) (H1 := Fixture.tools)
             Fixture.config TITLE Fixture.monster_listing_1 AttributeError).
    repeat constructor.
  - apply (glassdoor_get_failures (H := Fixture.bs4) (H1 := Fixture.tools)
             Fixture.config DESCRIPTION Fixture.monster_listing_1 AttributeError).
    unfold GlassDoor.job_get_fields. intros Hin. elem_cases Hin; discriminate.
Defined.

Lemma monster_set_effects_witness :
  (@Monster.set Fixture.bs4 Fixture.requests_session TITLE ∅
     Fixture.monster_listing_1 []
   = (Raise NotImplementedError, []))
  /\ (@Monster.set Fixture.bs4 Fixture.requests_session KEY_ID
        (<[URL := VStr "https://job-openings.monster.ca/data-engineer/219876543"]> ∅)
        Fixture.monster_listing_2 []).2 = [].
Proof.
  split.
  - apply (monster_set_effects (H := Fixture.bs4) (H0 := Fixture.requests_session)
             TITLE ∅ Fixture.monster_listing_1 []).
    unfold Monster.job_set_fields. intros Hin. elem_cases Hin; discriminate.
  - apply (monster_set_effects (H := Fixture.bs4) (H0 := Fixture.requests_session)
             KEY_ID
             (<[URL := VStr "https://job-openings.monster.ca/data-engineer/219876543"]> ∅)
             Fixture.monster_listing_2 []).
    reflexivity.
Defined.

Lemma glassdoor_no_page_planned_witness :
  0 <= 0
  /\ @GlassDoor.get_job_soups_from_search_result_listings
       Edge.bs4 Edge.requests_session Fixture.config 30 Edge.empty_url
       Fixture.glassdoor_data
       (GlassDoor.Returned [] [POST Edge.empty_url Fixture.glassdoor_data]).
Proof.
  split; [lia |].
  apply (glassdoor_no_page_planned (H := Edge.bs4) (H0 := Edge.requests_session)
           Fixture.config 30 Edge.empty_url Fixture.glassdoor_data
           {| url := Edge.empty_url; response_text := "glassdoor: 0 jobs" |} 0
           (GlassDoor.Returned [] [POST Edge.empty_url Fixture.glassdoor_data]));
    reflexivity || lia.
Defined.

Lemma glassdoor_missing_next_link_witness :
  2 <= 2
  /\ @GlassDoor.get_job_soups_from_search_result_listings
       Edge.bs4 Edge.requests_session Fixture.config 30 Edge.linkless_url
       Fixture.glassdoor_data (GlassDoor.Raised AttributeError).
Proof.
  split; [lia |].
  destruct (glassdoor_missing_next_link (H := Edge.bs4) (H0 := Edge.requests_session)
              Fixture.config 30 Edge.linkless_url Fixture.glassdoor_data
              {| url := Edge.linkless_url;
                 response_text := "glassdoor: 40 jobs, no next link" |} 2
              (GlassDoor.Raised AttributeError) eq_refl eq_refl
              (or_introl eq_refl)) as [Hraise _].
  apply Hraise; [lia | reflexivity].
Defined.

Lemma glassdoor_count_failures_witness :
  @GlassDoor._get_num_search_result_pages Edge.bs4 30
    (@BeautifulSoup Edge.bs4 "glassdoor: no count") = Raise AttributeError
  /\ @GlassDoor._get_num_search_result_pages Edge.bs4 0
       (@BeautifulSoup Edge.bs4 "glassdoor: 0 jobs") = Raise ZeroDivisionError.
Proof.
  split.
  - apply (glassdoor_count_failures (H := Edge.bs4) 30
             (@BeautifulSoup Edge.bs4 "glassdoor: no count")
             (Fixture.Node "" [] [] [])).
    reflexivity.
  - apply (glassdoor_count_failures (H := Edge.bs4) 0
             (@BeautifulSoup Edge.bs4 "glassdoor: 0 jobs")
             (Fixture.Node " 0 Jobs " [] [] [])); reflexivity.
Defined.

Lemma monster_count_failures_witness :
  @session_get Edge.requests_session "https://www.monster.ca/nowhere" = None
  /\ @Monster._get_num_search_result_pages Edge.bs4 Edge.requests_session
       "https://www.monster.ca/nowhere" []
     = (Raise RequestException, [GET "https://www.monster.ca/nowhere"])
  /\ @Monster._get_num_search_result_pages Edge.bs4 Edge.requests_session
       Fixture.monster_search_url []
     = (Raise IndexError, [GET Fixture.monster_search_url]).
Proof.
  split; [reflexivity |]. split.
  - apply (monster_count_failures (H := Edge.bs4) (H0 := Edge.requests_session)
             Monster.MonsterScraperCANEng Fixture.config
             "https://www.monster.ca/nowhere" []
             {| url := ""; response_text := "" |} (Fixture.Node "" [] [] [])).
    reflexivity.
  - destruct (monster_count_failures (H := Edge.bs4) (H0 := Edge.requests_session)
                Monster.MonsterScraperCANEng Fixture.config
                Fixture.monster_search_url []
                {| url := Fixture.monster_search_url;
                   response_text := "monster: no jobs" |}
                (Fixture.Node "Sorry, no jobs found" [] [] []))
      as [_ [Hpage _]].
    apply (Hpage eq_refl); reflexivity.
Defined.

Lemma pool_only_appends_witness :
  exists p',
    @GlassDoor.wait Fixture.bs4 Fixture.requests_session Edge.pool_at_work p'
    /\ [Fixture.glassdoor_listing_1] `prefix_of` GlassDoor.job_soup_list p'.
Proof.
  assert (exists p', @GlassDoor.wait Fixture.bs4 Fixture.requests_session
                       Edge.pool_at_work p') as [p' Hwait]
    by apply wait_exists.
  exists p'. split; [exact Hwait |].
  apply (pool_only_appends (H := Fixture.bs4) (H0 := Fixture.requests_session)
           Edge.pool_at_work p' Hwait).
Defined.

Lemma glassdoor_pages_are_appended_whole_witness :
  exists soups reqs blocks,
    @GlassDoor.get_job_soups_from_search_result_listings
      Fixture.bs4 Fixture.requests_session Fixture.config 30
      Fixture.glassdoor_search_url Fixture.glassdoor_data
      (GlassDoor.Returned soups reqs)
    /\ soups = concat blocks
    /\ blocks ≡ₚ [[Fixture.glassdoor_listing_1]; [Fixture.glassdoor_listing_2]; []].
Proof.
  destruct (@listings_return Fixture.bs4 Fixture.requests_session Fixture.config 30
              Fixture.glassdoor_search_url Fixture.glassdoor_data
              _ eq_refl 3 eq_refl _ fixture_glassdoor_addresses)
    as [soups [reqs Hrun]].
  destruct (glassdoor_pages_are_appended_whole
              (H := Fixture.bs4) (H0 := Fixture.requests_session)
              Fixture.config 30 Fixture.glassdoor_search_url Fixture.glassdoor_data
              {| url := Fixture.glassdoor_search_url;
                 response_text := "glassdoor: 65 jobs" |}
              3 _ soups reqs eq_refl eq_refl fixture_glassdoor_addresses Hrun)
    as [blocks [Hsoups Hblocks]].
  exists soups, reqs, blocks. split; [exact Hrun |]. split; [exact Hsoups |].
  exact Hblocks.
Defined.

Lemma scrapers_one_per_provider_witness :
  Funnel.scrapers Edge.registry Edge.driven_registry (Edge.funnel_config true)
  = Funnel.Got ["MonsterScraperCANEng"; "SeleniumGlassDoorScraperCANEng"]
  /\ length ["MonsterScraperCANEng"; "SeleniumGlassDoorScraperCANEng"]
     = length (Funnel.providers (Edge.funnel_config true)).
Proof.
  assert (Funnel.scrapers Edge.registry Edge.driven_registry (Edge.funnel_config true)
          = Funnel.Got ["MonsterScraperCANEng"; "SeleniumGlassDoorScraperCANEng"])
    as Hrun by (vm_compute; reflexivity).
  split; [exact Hrun |].
  apply (scrapers_one_per_provider Edge.registry Edge.driven_registry
           (Edge.funnel_config true) _ Hrun).
Defined.

Lemma scrapers_returns_iff_witness :
  "INDEED" ∈ ["MONSTER"; "INDEED"]
  /\ exists e,
       Funnel.scrapers Edge.registry Edge.driven_registry
         {| Funnel.providers := ["MONSTER"; "INDEED"];
            Funnel.locale := "CANADA_ENGLISH";
            Funnel.web_driven_scraping := false |}
       = Funnel.Fail e.
Proof.
  split; [repeat constructor |].
  apply (scrapers_returns_iff Edge.registry Edge.driven_registry
           {| Funnel.providers := ["MONSTER"; "INDEED"];
              Funnel.locale := "CANADA_ENGLISH";
              Funnel.web_driven_scraping := false |} "INDEED").
  - repeat constructor.
  - vm_compute. reflexivity.
  - vm_compute. reflexivity.
Defined.

Lemma scrapers_ignores_driven_registry_witness :
  Funnel.web_driven_scraping (Edge.funnel_config false) = false
  /\ Funnel.scrapers Edge.registry Edge.driven_registry (Edge.funnel_config false)
     = Funnel.scrapers Edge.registry ∅ (Edge.funnel_config false).
Proof.
  split; [reflexivity |].
  apply (scrapers_ignores_driven_registry Edge.registry Edge.driven_registry ∅
           (Edge.funnel_config false)).
  reflexivity.
Defined.
